(** * Google Workspace helper scripts: dispatcher, normalizers, fan-out

    A shallow embedding of [gmail.js], [sheets.js] and [calendar.js]
    (skills/google-workspace/scripts).  JavaScript values are modelled by a
    small dynamically typed universe, exceptions by a [result] type, and the
    process (remote calls, standard output, standard error, exit status) by a
    state monad over a [world] record.  What the scripts take from their
    environment (the clock, the base64 decoder, the JSON parser, the file
    system, standard input, the remote service and the order in which it
    answers concurrent requests) is the interface [Runtime]; the three
    credentials that [getAuth] requires are taken to be present. *)

From Stdlib Require Import ZArith String Ascii List Lia.
From stdpp Require Import base list.
Import ListNotations.

Local Open Scope string_scope.
Local Open Scope Z_scope.

(** ** JavaScript values *)

Set Warnings "-register-all".

(** Numbers that occur in the scripts are integers (counts, lengths) or the
    NaN produced by [parseInt]; strings are sequences of code units. *)
Inductive value : Type :=
  | VUndef
  | VNull
  | VBool (b : bool)
  | VNum (n : Z)
  | VNaN
  | VStr (s : string)
  | VArr (xs : list value)
  | VObj (fs : list (string * value)).

Inductive exn : Type :=
  | TypeError
  | SyntaxError
  | IOError (msg : string)
  | RemoteError (msg : string).

Inductive result (A : Type) : Type :=
  | Ok (a : A)
  | Error (e : exn).
Arguments Ok {A} a.
Arguments Error {A} e.

Definition rbind {A B} (r : result A) (k : A -> result B) : result B :=
  match r with
  | Ok a => k a
  | Error e => Error e
  end.

Notation "'let?' x ':=' r 'in' k" := (rbind r (fun x => k))
  (at level 10, x name, r at level 100, k at level 200).

Fixpoint rmap {A B} (f : A -> result B) (l : list A) : result (list B) :=
  match l with
  | [] => Ok []
  | x :: l' =>
      let? y := f x in
      let? ys := rmap f l' in
      Ok (y :: ys)
  end.

(** ToBoolean *)
Definition truthy (v : value) : bool :=
  match v with
  | VUndef | VNull | VNaN => false
  | VBool b => b
  | VNum n => negb (n =? 0)
  | VStr s => negb (String.eqb s "")
  | VArr _ | VObj _ => true
  end.

(** [a || b] *)
Definition or_else (a b : value) : value := if truthy a then a else b.

Definition nullish (v : value) : bool :=
  match v with
  | VUndef | VNull => true
  | _ => false
  end.

Fixpoint field (fs : list (string * value)) (k : string) : value :=
  match fs with
  | [] => VUndef
  | (k', v) :: fs' => if String.eqb k' k then v else field fs' k
  end.

(** Property read on a value that is neither [undefined] nor [null].  Of the
    built-in properties only [length] is ever read by the scripts. *)
Definition prop (v : value) (k : string) : value :=
  match v with
  | VObj fs => field fs k
  | VArr xs => if String.eqb k "length" then VNum (Z.of_nat (List.length xs)) else VUndef
  | VStr s => if String.eqb k "length" then VNum (Z.of_nat (String.length s)) else VUndef
  | _ => VUndef
  end.

(** [v.k] *)
Definition get (v : value) (k : string) : result value :=
  if nullish v then Error TypeError else Ok (prop v k).

(** [v?.k] *)
Definition get_opt (v : value) (k : string) : value :=
  if nullish v then VUndef else prop v k.

(** [v.map(f)]: only arrays have a [map] method; on anything else, also on
    [undefined] and [null], the call throws. *)
Definition array_map (v : value) (f : value -> result value) : result value :=
  match v with
  | VArr xs => let? ys := rmap f xs in Ok (VArr ys)
  | _ => Error TypeError
  end.

(** A parameter with a default initializer: [function (p = d)]. *)
Definition default (p d : value) : value :=
  match p with
  | VUndef => d
  | _ => p
  end.

(** [args[i]] on the array of command-line strings. *)
Definition arg (args : list string) (i : nat) : value :=
  match args !! i with
  | Some s => VStr s
  | None => VUndef
  end.

(** [args.join(' ')] *)
Fixpoint join (args : list string) : string :=
  match args with
  | [] => ""
  | [s] => s
  | s :: rest => s ++ " " ++ join rest
  end.

(** ** parseInt(_, 10) *)

Definition is_space (c : ascii) : bool :=
  let n := nat_of_ascii c in
  (Nat.eqb n 32 || Nat.eqb n 9 || Nat.eqb n 10 || Nat.eqb n 11 || Nat.eqb n 12 || Nat.eqb n 13)%bool.

Definition digit (c : ascii) : option Z :=
  let n := Z.of_nat (nat_of_ascii c) in
  if (48 <=? n) && (n <=? 57) then Some (n - 48) else None.

Fixpoint skip_spaces (s : string) : string :=
  match s with
  | String c s' => if is_space c then skip_spaces s' else s
  | EmptyString => s
  end.

Fixpoint digits (acc : option Z) (s : string) : option Z :=
  match s with
  | String c s' =>
      match digit c with
      | Some d => digits (Some (10 * match acc with Some a => a | None => 0 end + d)) s'
      | None => acc
      end
  | EmptyString => acc
  end.

Definition parse_decimal (s : string) : value :=
  let body := skip_spaces s in
  let '(neg, rest) :=
    match body with
    | String "-" r => (true, r)
    | String "+" r => (false, r)
    | _ => (false, body)
    end in
  match digits None rest with
  | Some n => VNum (if neg then - n else n)
  | None => VNaN
  end.

Definition parseInt (v : value) : value :=
  match v with
  | VNum n => VNum n
  | VStr s => parse_decimal s
  | _ => VNaN
  end.

(** ** Strings *)

Definition lower (c : ascii) : ascii :=
  let n := nat_of_ascii c in
  if (Nat.leb 65 n && Nat.leb n 90)%bool then ascii_of_nat (n + 32) else c.

Fixpoint toLowerCase (s : string) : string :=
  match s with
  | String c s' => String (lower c) (toLowerCase s')
  | EmptyString => EmptyString
  end.

(** [s.replace(/c/g, r)] for a single character [c]. *)
Fixpoint replace_all (c : ascii) (r : string) (s : string) : string :=
  match s with
  | String c' s' =>
      if Ascii.eqb c' c then r ++ replace_all c r s'
      else String c' (replace_all c r s')
  | EmptyString => EmptyString
  end.

(** A string literal between double quotes. *)
Definition quoted (s : string) : string :=
  let q := String (ascii_of_nat 34) EmptyString in q ++ s ++ q.

(** The characters of a string, as [for ... of] yields them. *)
Fixpoint chars (s : string) : list value :=
  match s with
  | String c s' => VStr (String c EmptyString) :: chars s'
  | EmptyString => []
  end.

(** [v?.[0]] *)
Definition index0_opt (v : value) : value :=
  match v with
  | VArr (x :: _) => x
  | VStr (String c _) => VStr (String c EmptyString)
  | VObj fs => field fs "0"
  | _ => VUndef
  end.

(** [v === s] for a string literal [s]. *)
Definition is_str (v : value) (s : string) : bool :=
  match v with
  | VStr s' => String.eqb s' s
  | _ => false
  end.

(** [v === 0] *)
Definition is_zero (v : value) : bool :=
  match v with
  | VNum 0 => true
  | _ => false
  end.

(** ** The remote service *)

(** Methods of the remote client library.  The scripts use fourteen of them; the
    destructive ones are listed because the client object offers them. *)
Inductive endpoint : Type :=
  | gmail_users_messages_list
  | gmail_users_messages_get
  | gmail_users_messages_trash
  | gmail_users_messages_delete
  | gmail_users_labels_list
  | gmail_users_labels_delete
  | gmail_users_threads_list
  | gmail_users_threads_get
  | gmail_users_threads_trash
  | gmail_users_threads_delete
  | calendar_events_list
  | calendar_events_get
  | calendar_events_insert
  | calendar_events_quickAdd
  | calendar_events_patch
  | calendar_events_update
  | calendar_events_delete
  | calendar_calendarList_list
  | calendar_calendarList_delete
  | calendar_calendars_delete
  | drive_files_list
  | drive_files_delete
  | sheets_spreadsheets_get
  | sheets_spreadsheets_values_get
  | sheets_spreadsheets_values_clear.

Definition is_delete (e : endpoint) : bool :=
  match e with
  | gmail_users_messages_delete | gmail_users_labels_delete
  | gmail_users_threads_delete | calendar_events_delete
  | calendar_calendarList_delete | calendar_calendars_delete
  | drive_files_delete => true
  | _ => false
  end.

Record call : Type := Call { endpoint_of : endpoint; params_of : value }.

(** What the service answers: [res.data] of a resolved promise, or the message
    of the error a rejected one carries. *)
Inductive response : Type :=
  | Resolve (data : value)
  | Reject (msg : string).

(** ** The runtime the scripts run in *)

Class Runtime : Type := {
  (** [new Date()], as a local time value in milliseconds *)
  now : Z;
  (** [Date.prototype.toISOString] of a local time value *)
  toISOString : Z -> string;
  (** [Buffer.from(s, 'base64').toString('utf8')] *)
  base64_utf8 : string -> string;
  JSON_parse : string -> result value;
  (** [fs.readFileSync(path, 'utf8')] *)
  readFileSync : string -> result string;
  (** everything [process.stdin] delivers *)
  stdin : string;
  (** the answer to a request, given the requests issued before it *)
  remote : list call -> call -> response;
  (** the order in which the requests in flight of a fan-out are answered *)
  sched : list nat;
}.

(** ** Time-window helper (calendar.js) *)

Definition msPerDay : Z := 86400000.

(** ECMAScript [Day(t)] and [WeekDay(t)] on a local time value. *)
Definition Day (t : Z) : Z := t / msPerDay.
Definition getDay (t : Z) : Z := (Day t + 4) mod 7.

(** [d.setHours(h, m, s, ms)]: same day, given time within the day. *)
Definition setHours (t h m s ms : Z) : Z :=
  Day t * msPerDay + (h * 3600000 + m * 60000 + s * 1000 + ms).

(** [d.setDate(d.getDate() + k)]: ECMAScript's [MakeDay] of the current year
    and month with day-of-month [getDate() + k] is the day number [Day t + k];
    the time within the day is kept. *)
Definition setDate_plus (t k : Z) : Z := t + k * msPerDay.

Section Helpers.
Context {RT : Runtime}.

Definition startOfDay : string := toISOString (setHours now 0 0 0 0).

Definition endOfDay : string := toISOString (setHours now 23 59 59 999).

Definition endOfWeek_local (d : Z) : Z :=
  let d := setDate_plus d (7 - getDay d) in
  setHours d 23 59 59 999.

Definition endOfWeek : string := toISOString (endOfWeek_local now).

(** ** Response normalizers *)

(** calendar.js *)

(** The arrow function mapped over the attendees. *)
Definition format_attendee (a : value) : result value :=
  let? email := get a "email" in
  let? responseStatus := get a "responseStatus" in
  Ok (VObj [("email", email); ("responseStatus", responseStatus)]).

Definition formatEvent (ev : value) : result value :=
  let? id := get ev "id" in
  let? summary := get ev "summary" in
  let? description := get ev "description" in
  let? location := get ev "location" in
  let? start := get ev "start" in
  let? end_ := get ev "end" in
  let? status := get ev "status" in
  let? htmlLink := get ev "htmlLink" in
  let? creator := get ev "creator" in
  let? attendees := get ev "attendees" in
  let? attendees' :=
    array_map (or_else attendees (VArr [])) format_attendee in
  let? hangoutLink := get ev "hangoutLink" in
  let? recurringEventId := get ev "recurringEventId" in
  Ok (VObj
    [("id", id);
     ("summary", summary);
     ("description", or_else description (VStr ""));
     ("location", or_else location (VStr ""));
     ("start", or_else (get_opt start "dateTime") (or_else (get_opt start "date") (VStr "")));
     ("end", or_else (get_opt end_ "dateTime") (or_else (get_opt end_ "date") (VStr "")));
     ("status", status);
     ("htmlLink", htmlLink);
     ("creator", get_opt creator "email");
     ("attendees", attendees');
     ("hangoutLink", or_else hangoutLink (VStr ""));
     ("recurringEventId", or_else recurringEventId (VStr ""))]).

(** gmail.js *)
Definition decodeBase64Url (str : value) : result string :=
  if negb (truthy str) then Ok ""
  else
    match str with
    | VStr s => Ok (base64_utf8 (replace_all "_" "/" (replace_all "-" "+" s)))
    | _ => Error TypeError
    end.

(** [headers.find((h) => h.name.toLowerCase() === name.toLowerCase())] *)
Fixpoint find_header (hs : list value) (name : string) : result value :=
  match hs with
  | [] => Ok VUndef
  | h :: hs' =>
      let? n := get h "name" in
      match n with
      | VStr s =>
          if String.eqb (toLowerCase s) (toLowerCase name) then Ok h
          else find_header hs' name
      | _ => Error TypeError
      end
  end.

Definition getHeader (headers : value) (name : string) : result value :=
  match or_else headers (VArr []) with
  | VArr hs =>
      let? h := find_header hs name in
      if truthy h then get h "value" else Ok (VStr "")
  | _ => Error TypeError
  end.

(** [for (const part of parts)]: arrays and strings are iterable. *)
Definition iterate (v : value) : result (list value) :=
  match v with
  | VArr xs => Ok xs
  | VStr s => Ok (chars s)
  | _ => Error TypeError
  end.

Definition nonempty (s : string) : bool := negb (String.eqb s "").

(** The loop of [extractBody] over the parts, with the recursive call as a
    parameter. *)
Fixpoint first_text (rec : value -> result string) (parts : list value)
  : result string :=
  match parts with
  | [] => Ok ""
  | part :: parts' =>
      let? text := rec part in
      if nonempty text then Ok text else first_text rec parts'
  end.

Definition html_fallback (mimeType data : value) : result string :=
  if is_str mimeType "text/html" && truthy data then
    let? html := decodeBase64Url data in
    Ok ("[HTML] " ++ substring 0 2000 html)
  else Ok "".

(** [extractBody], by structural recursion: the inner [in_fields] reads the
    [parts] property of the object where the recursion needs it.
    [extractBody_unfold] below restates it in the shape of the source. *)
Fixpoint extractBody (payload : value) : result string :=
  match payload with
  | VUndef | VNull => Error TypeError
  | VObj fs =>
      let mimeType := field fs "mimeType" in
      let data := get_opt (field fs "body") "data" in
      if is_str mimeType "text/plain" && truthy data then decodeBase64Url data
      else
        let? text :=
          (fix in_fields (fs : list (string * value)) : result string :=
             match fs with
             | [] => Ok ""
             | (k, v) :: fs' =>
                 if String.eqb k "parts" then
                   match v with
                   | VArr ps => first_text extractBody ps
                   | VStr s => Ok ""
                   | _ => if truthy v then Error TypeError else Ok ""
                   end
                 else in_fields fs'
             end) fs in
        if nonempty text then Ok text else html_fallback mimeType data
  | _ => Ok ""
  end.

(** The body of [extractBody] as the source has it. *)
Definition extractBody_body (rec : value -> result string) (payload : value)
  : result string :=
  let? mimeType := get payload "mimeType" in
  let? body := get payload "body" in
  let data := get_opt body "data" in
  if is_str mimeType "text/plain" && truthy data then decodeBase64Url data
  else
    let? parts := get payload "parts" in
    let? text :=
      (if truthy parts then
         let? ps := iterate parts in first_text rec ps
       else Ok "") in
    if nonempty text then Ok text else html_fallback mimeType data.

Definition formatMessage (msg : value) : result value :=
  let? payload := get msg "payload" in
  let headers := or_else (get_opt payload "headers") (VArr []) in
  let? id := get msg "id" in
  let? threadId := get msg "threadId" in
  let? from := getHeader headers "From" in
  let? to := getHeader headers "To" in
  let? subject := getHeader headers "Subject" in
  let? date := getHeader headers "Date" in
  let? snippet := get msg "snippet" in
  let? labels := get msg "labelIds" in
  let? body := extractBody payload in
  Ok (VObj
    [("id", id);
     ("threadId", threadId);
     ("from", from);
     ("to", to);
     ("subject", subject);
     ("date", date);
     ("snippet", snippet);
     ("labels", labels);
     ("body", VStr body)]).

End Helpers.

(** ** The process: remote calls, output streams, exit *)

Inductive out_line : Type :=
  | OutText (s : string)
  (** [console.log(JSON.stringify(v, null, 2))] *)
  | OutJson (v : value).

Inductive err_line : Type :=
  | ErrText (s : string)
  (** [console.error('Error:', err.message)] *)
  | ErrCaught (e : exn).

Record world : Type := World {
  calls : list call;
  stdout : list out_line;
  stderr : list err_line;
}.

Definition initial : world := World [] [] [].

Inductive outcome (A : Type) : Type :=
  | Done (a : A)
  | Raised (e : exn)
  (** [process.exit(code)] *)
  | Exited (code : Z)
  (** an awaited promise that is never settled *)
  | Stuck.
Arguments Done {A} a.
Arguments Raised {A} e.
Arguments Exited {A} code.
Arguments Stuck {A}.

Definition M (A : Type) : Type := world -> outcome A * world.

Definition ret {A} (a : A) : M A := fun w => (Done a, w).

Definition bind {A B} (m : M A) (k : A -> M B) : M B :=
  fun w =>
    match m w with
    | (Done a, w') => k a w'
    | (Raised e, w') => (Raised e, w')
    | (Exited c, w') => (Exited c, w')
    | (Stuck, w') => (Stuck, w')
    end.

Notation "'let!' x ':=' m 'in' k" := (bind m (fun x => k))
  (at level 10, x name, m at level 100, k at level 200).
Notation "m ';;;' k" := (bind m (fun _ => k))
  (at level 100, k at level 200, right associativity).

Definition lift {A} (r : result A) : M A :=
  fun w =>
    match r with
    | Ok a => (Done a, w)
    | Error e => (Raised e, w)
    end.

Definition console_log (l : out_line) : M unit :=
  fun w => (Done tt, World (calls w) (stdout w ++ [l]) (stderr w)).

Definition console_error (s : string) : M unit :=
  fun w => (Done tt, World (calls w) (stdout w) (stderr w ++ [ErrText s])).

Definition process_exit {A} (code : Z) : M A := fun w => (Exited code, w).

(** What became of a promise. *)
Inductive settled (A : Type) : Type :=
  | Fulfilled (a : A)
  | Rejected (e : exn)
  | Unsettled.
Arguments Fulfilled {A} a.
Arguments Rejected {A} e.
Arguments Unsettled {A}.

(** [await p] *)
Definition await {A} (p : settled A) : M A :=
  fun w =>
    match p with
    | Fulfilled a => (Done a, w)
    | Rejected e => (Raised e, w)
    | Unsettled => (Stuck, w)
    end.

(** One promise of a fan-out, once the [async] arrow function has run up to
    its first [await]: either it threw before issuing its request, or the
    request is in flight with the answer it will get and the rest of the
    function to run on it. *)
Inductive task : Type :=
  | TRejected (e : exn)
  | TPending (r : response) (k : value -> result value).

Fixpoint first_rejected (tasks : list task) : option exn :=
  match tasks with
  | [] => None
  | TRejected e :: _ => Some e
  | TPending _ _ :: tasks' => first_rejected tasks'
  end.

(** The value array of [Promise.all] if every slot is filled. *)
Fixpoint collect (slots : list (option value)) : option (list value) :=
  match slots with
  | [] => Some []
  | Some v :: slots' =>
      match collect slots' with
      | Some vs => Some (v :: vs)
      | None => None
      end
  | None :: _ => None
  end.

(** [Promise.all] over requests in flight.  Answers arrive in the order
    [order]; the answer to request [i] runs the rest of promise [i], whose
    value is stored at index [i] of the value array.  The first rejection
    rejects the aggregate; the aggregate is fulfilled once every slot is
    filled. *)
Fixpoint join_all (tasks : list task) (slots : list (option value))
    (order : list nat) : settled (list value) :=
  match collect slots with
  | Some vs => Fulfilled vs
  | None =>
      match order with
      | [] => Unsettled
      | i :: order' =>
          match tasks !! i, slots !! i with
          | Some (TPending r k), Some None =>
              match r with
              | Reject msg => Rejected (RemoteError msg)
              | Resolve data =>
                  match k data with
                  | Ok v => join_all tasks (<[i := Some v]> slots) order'
                  | Error e => Rejected e
                  end
              end
          | _, _ => join_all tasks slots order'
          end
      end
  end.

Definition promise_all (tasks : list task) (order : list nat)
  : settled (list value) :=
  match first_rejected tasks with
  | Some e => Rejected e
  | None => join_all tasks (List.map (fun _ => None) tasks) order
  end.

Section Process.
Context {RT : Runtime}.

(** A method of the client library, awaited: the request is recorded, then
    the promise is settled by the service's answer. *)
Definition remote_call (e : endpoint) (params : value) : M value :=
  fun w =>
    let c := Call e params in
    let w' := World (calls w ++ [c]) (stdout w) (stderr w) in
    match remote (calls w) c with
    | Resolve data => (Done data, w')
    | Reject msg => (Raised (RemoteError msg), w')
    end.

(** [items.map(async (m) => ...)]: each arrow function runs up to its first
    [await], issuing its request; [start] builds the request, [finish] is the
    rest of the function. *)
Fixpoint issue_all (items : list value) (start : value -> result call)
    (finish : value -> value -> result value) : M (list task) :=
  match items with
  | [] => ret []
  | m :: items' =>
      let! t :=
        (fun w =>
           match start m with
           | Error e => (Done (TRejected e), w)
           | Ok c =>
               (Done (TPending (remote (calls w) c) (finish m)),
                World (calls w ++ [c]) (stdout w) (stderr w))
           end) in
      let! ts := issue_all items' start finish in
      ret (t :: ts)
  end.

(** [await Promise.all(v.map(async (m) => ...))] *)
Definition fan_out (v : value) (start : value -> result call)
    (finish : value -> value -> result value) : M value :=
  match v with
  | VArr items =>
      let! tasks := issue_all items start finish in
      let! vs := await (promise_all tasks sched) in
      ret (VArr vs)
  | _ => lift (Error TypeError)
  end.

End Process.

(** The top-level [(async () => { try { ... } catch (err) { ... } })()] of
    each script, run from the initial world: the exit status (if the process
    ends) and the final world. *)
Definition script (body : M unit) : option Z * world :=
  match body initial with
  | (Done _, w) => (Some 0, w)
  | (Raised e, w) =>
      (Some 1, World (calls w) (stdout w) (stderr w ++ [ErrCaught e]))
  | (Exited c, w) => (Some c, w)
  | (Stuck, w) => (None, w)
  end.

(** [console.error(...); process.exit(1)] of a usage message. *)
Fixpoint usage {A} (lines : list string) : M A :=
  match lines with
  | [] => process_exit 1
  | l :: lines' => console_error l ;;; usage lines'
  end.

(** ** gmail.js *)

Module Gmail.
Section Gmail.
Context {RT : Runtime}.

Definition metadata_request (e : endpoint) (id : value) : call :=
  Call e (VObj
    [("userId", VStr "me");
     ("id", id);
     ("format", VStr "metadata");
     ("metadataHeaders", VArr [VStr "From"; VStr "Subject"; VStr "Date"])]).

(** The arrow function of [listMessages], up to its [await] ... *)
Definition message_start (m : value) : result call :=
  let? id := get m "id" in
  Ok (metadata_request gmail_users_messages_get id).

(** ... and after it; [data] is [full.data]. *)
Definition message_finish (m data : value) : result value :=
  let? payload := get data "payload" in
  let headers := or_else (get_opt payload "headers") (VArr []) in
  let? id := get m "id" in
  let? from := getHeader headers "From" in
  let? subject := getHeader headers "Subject" in
  let? date := getHeader headers "Date" in
  let? snippet := get data "snippet" in
  Ok (VObj
    [("id", id);
     ("from", from);
     ("subject", subject);
     ("date", date);
     ("snippet", snippet)]).

Definition list_params (maxResults query : value) : value :=
  VObj ([("userId", VStr "me"); ("maxResults", parseInt maxResults)]
        ++ (if truthy query then [("q", query)] else [])).

Definition listMessages (maxResults query : value) : M unit :=
  let maxResults := default maxResults (VNum 10) in
  let query := default query (VStr "") in
  let params := list_params maxResults query in
  let! data := remote_call gmail_users_messages_list params in
  let! messages := lift (get data "messages") in
  let messages := or_else messages (VArr []) in
  if is_zero (prop messages "length") then
    console_log (OutText "No messages found.")
  else
    let! summaries := fan_out messages message_start message_finish in
    console_log (OutJson summaries).

Definition readMessage (messageId : value) : M unit :=
  let! data :=
    remote_call gmail_users_messages_get
      (VObj [("userId", VStr "me"); ("id", messageId); ("format", VStr "full")]) in
  let! msg := lift (formatMessage data) in
  console_log (OutJson msg).

Definition searchMessages (query maxResults : value) : M unit :=
  let maxResults := default maxResults (VNum 10) in
  listMessages maxResults query.

Definition listLabels : M unit :=
  let! data :=
    remote_call gmail_users_labels_list (VObj [("userId", VStr "me")]) in
  let! labels := lift (get data "labels") in
  let! labels :=
    lift (array_map (or_else labels (VArr []))
      (fun l =>
         let? id := get l "id" in
         let? name := get l "name" in
         let? type := get l "type" in
         Ok (VObj [("id", id); ("name", name); ("type", type)]))) in
  console_log (OutJson labels).

Definition thread_start (t : value) : result call :=
  let? id := get t "id" in
  Ok (metadata_request gmail_users_threads_get id).

Definition thread_finish (t data : value) : result value :=
  let? messages := get data "messages" in
  let firstMsg := index0_opt messages in
  let headers := or_else (get_opt (get_opt firstMsg "payload") "headers") (VArr []) in
  let? id := get t "id" in
  let? from := getHeader headers "From" in
  let? subject := getHeader headers "Subject" in
  let? date := getHeader headers "Date" in
  Ok (VObj
    [("threadId", id);
     ("messageCount", or_else (get_opt messages "length") (VNum 0));
     ("from", from);
     ("subject", subject);
     ("date", date);
     ("snippet", get_opt firstMsg "snippet")]).

Definition listThreads (query maxResults : value) : M unit :=
  let maxResults := default maxResults (VNum 10) in
  let params := list_params maxResults query in
  let! data := remote_call gmail_users_threads_list params in
  let! threads := lift (get data "threads") in
  let threads := or_else threads (VArr []) in
  if is_zero (prop threads "length") then
    console_log (OutText "No threads found.")
  else
    let! summaries := fan_out threads thread_start thread_finish in
    console_log (OutJson summaries).

Definition usage_default : list string :=
  ["Gmail Helper — Read Only";
   "Commands: list, read, search, labels, threads";
   "Examples:";
   "  node gmail.js list 5";
   "  node gmail.js read 18dc1234abcd";
   "  node gmail.js search " ++ quoted "from:boss@company.com" ++ " 10";
   "  node gmail.js labels";
   "  node gmail.js threads " ++ quoted "subject:meeting" ++ " 5"].

(** The [switch (command)] of the script; [argv] is [process.argv] without
    its first two entries. *)
Definition dispatch (argv : list string) : M unit :=
  let command := arg argv 0 in
  let args := drop 1 argv in
  if is_str command "list" then
    listMessages (arg args 0) (VStr (join (drop 1 args)))
  else if is_str command "read" then
    (if negb (truthy (arg args 0)) then
       usage ["Usage: gmail.js read <messageId>"]
     else ret tt) ;;;
    readMessage (arg args 0)
  else if is_str command "search" then
    (if negb (truthy (arg args 0)) then
       usage ["Usage: gmail.js search <query> [maxResults]"]
     else ret tt) ;;;
    searchMessages (arg args 0) (arg args 1)
  else if is_str command "labels" then
    listLabels
  else if is_str command "threads" then
    listThreads (arg args 0) (arg args 1)
  else
    usage usage_default.

Definition main (argv : list string) : option Z * world :=
  script (dispatch argv).

End Gmail.
End Gmail.

(** ** sheets.js *)

Module Sheets.
Section Sheets.
Context {RT : Runtime}.

(** [query.replace] of the source: a backslash before every single quote. *)
Definition escape (query : value) : result string :=
  match query with
  | VStr s => Ok (replace_all "'" "\'" s)
  | _ => Error TypeError
  end.

Definition file_fields : string :=
  "files(id, name, mimeType, modifiedTime, webViewLink, owners)".

Definition file_ref (f : value) : result value :=
  let? id := get f "id" in
  let? name := get f "name" in
  let? mimeType := get f "mimeType" in
  let? modifiedTime := get f "modifiedTime" in
  let? webViewLink := get f "webViewLink" in
  let? owners := get f "owners" in
  Ok (VObj
    [("id", id);
     ("name", name);
     ("mimeType", mimeType);
     ("modifiedTime", modifiedTime);
     ("webViewLink", webViewLink);
     ("owner", or_else (get_opt (index0_opt owners) "emailAddress") (VStr ""))]).

Definition print_files (data : value) : M unit :=
  let! files := lift (get data "files") in
  let! files := lift (array_map (or_else files (VArr [])) file_ref) in
  console_log (OutJson files).

Definition listFiles (maxResults query : value) : M unit :=
  let maxResults := default maxResults (VNum 10) in
  let query := default query (VStr "") in
  let! q :=
    lift (if truthy query then
            let? e := escape query in
            Ok ("trashed = false" ++ " and (name contains '" ++ e ++ "')")
          else Ok "trashed = false") in
  let params :=
    VObj [("pageSize", parseInt maxResults);
          ("fields", VStr file_fields);
          ("orderBy", VStr "modifiedTime desc");
          ("q", VStr q)] in
  let! data := remote_call drive_files_list params in
  print_files data.

Definition readSheet (spreadsheetId range : value) : M unit :=
  let range := default range (VStr "") in
  if truthy range then
    let! data :=
      remote_call sheets_spreadsheets_values_get
        (VObj [("spreadsheetId", spreadsheetId); ("range", range)]) in
    let! range' := lift (get data "range") in
    let! values := lift (get data "values") in
    console_log (OutJson (VObj
      [("range", range'); ("values", or_else values (VArr []))]))
  else
    let! meta :=
      remote_call sheets_spreadsheets_get
        (VObj [("spreadsheetId", spreadsheetId)]) in
    let! sheetNames :=
      lift (let? sheets := get meta "sheets" in
            array_map sheets
              (fun s => let? p := get s "properties" in get p "title")) in
    let firstSheet :=
      match sheetNames with
      | VArr (n :: _) => n
      | _ => VUndef
      end in
    let! data :=
      remote_call sheets_spreadsheets_values_get
        (VObj [("spreadsheetId", spreadsheetId); ("range", firstSheet)]) in
    let! title :=
      lift (let? p := get meta "properties" in get p "title") in
    let! range' := lift (get data "range") in
    let! values := lift (get data "values") in
    console_log (OutJson (VObj
      [("spreadsheetTitle", title);
       ("sheet", firstSheet);
       ("availableSheets", sheetNames);
       ("range", range');
       ("values", or_else values (VArr []))])).

Definition sheet_entry (s : value) : result value :=
  let? p := get s "properties" in
  let? title := get p "title" in
  let? sheetId := get p "sheetId" in
  let? index := get p "index" in
  let? grid := get p "gridProperties" in
  Ok (VObj
    [("title", title);
     ("sheetId", sheetId);
     ("index", index);
     ("rowCount", get_opt grid "rowCount");
     ("columnCount", get_opt grid "columnCount")]).

Definition sheetInfo (spreadsheetId : value) : M unit :=
  let! data :=
    remote_call sheets_spreadsheets_get
      (VObj [("spreadsheetId", spreadsheetId)]) in
  let! info :=
    lift (let? p := get data "properties" in
          let? title := get p "title" in
          let? locale := get p "locale" in
          let? timeZone := get p "timeZone" in
          let? url := get data "spreadsheetUrl" in
          let? sheets := get data "sheets" in
          let? entries := array_map sheets sheet_entry in
          Ok (VObj
            [("title", title);
             ("locale", locale);
             ("timeZone", timeZone);
             ("spreadsheetUrl", url);
             ("sheets", entries)])) in
  console_log (OutJson info).

Definition searchFiles (query maxResults : value) : M unit :=
  let maxResults := default maxResults (VNum 10) in
  let! q :=
    lift (let? e := escape query in
          Ok ("trashed = false and (name contains '" ++ e
              ++ "' or fullText contains '" ++ e ++ "')")) in
  let params :=
    VObj [("pageSize", parseInt maxResults);
          ("fields", VStr file_fields);
          ("q", VStr q);
          ("orderBy", VStr "modifiedTime desc")] in
  let! data := remote_call drive_files_list params in
  print_files data.

Definition usage_default : list string :=
  ["Sheets & Drive Helper — Read Only";
   "Commands: files, read, info, search";
   "Examples:";
   "  node sheets.js files 10";
   "  node sheets.js search " ++ quoted "budget";
   "  node sheets.js info 1BxiMVs0XRA5nFMdKvBdBZjgmUUqptlbs74OgVE2upms";
   "  node sheets.js read 1BxiMVs0XRA5nFMdKvBdBZjgmUUqptlbs74OgVE2upms";
   "  node sheets.js read 1BxiMVs0XRA5nFMdKvBdBZjgmUUqptlbs74OgVE2upms "
     ++ quoted "Sheet1!A1:D10"].

Definition dispatch (argv : list string) : M unit :=
  let command := arg argv 0 in
  let args := drop 1 argv in
  if is_str command "files" then
    listFiles (arg args 0) (VStr (join (drop 1 args)))
  else if is_str command "read" then
    (if negb (truthy (arg args 0)) then
       usage ["Usage: sheets.js read <spreadsheetId> [range]";
              "  range example: " ++ quoted "Sheet1!A1:D10"]
     else ret tt) ;;;
    readSheet (arg args 0) (arg args 1)
  else if is_str command "info" then
    (if negb (truthy (arg args 0)) then
       usage ["Usage: sheets.js info <spreadsheetId>"]
     else ret tt) ;;;
    sheetInfo (arg args 0)
  else if is_str command "search" then
    (if negb (truthy (arg args 0)) then
       usage ["Usage: sheets.js search <query> [maxResults]"]
     else ret tt) ;;;
    searchFiles (arg args 0) (arg args 1)
  else
    usage usage_default.

Definition main (argv : list string) : option Z * world :=
  script (dispatch argv).

End Sheets.
End Sheets.

(** ** calendar.js *)

Module Calendar.
Section Calendar.
Context {RT : Runtime}.

Definition print_events (data : value) : M unit :=
  let! items := lift (get data "items") in
  let! events := lift (array_map (or_else items (VArr [])) formatEvent) in
  console_log (OutJson events).

Definition print_event (banner : string) (data : value) : M unit :=
  console_log (OutText banner) ;;;
  let! ev := lift (formatEvent data) in
  console_log (OutJson ev).

Definition listEvents (maxResults calendarId : value) : M unit :=
  let maxResults := default maxResults (VNum 10) in
  let calendarId := default calendarId (VStr "primary") in
  let! data :=
    remote_call calendar_events_list
      (VObj [("calendarId", calendarId);
             ("maxResults", parseInt maxResults);
             ("timeMin", VStr (toISOString now));
             ("singleEvents", VBool true);
             ("orderBy", VStr "startTime")]) in
  print_events data.

Definition todayEvents (calendarId : value) : M unit :=
  let calendarId := default calendarId (VStr "primary") in
  let! data :=
    remote_call calendar_events_list
      (VObj [("calendarId", calendarId);
             ("timeMin", VStr startOfDay);
             ("timeMax", VStr endOfDay);
             ("singleEvents", VBool true);
             ("orderBy", VStr "startTime")]) in
  print_events data.

Definition weekEvents (calendarId : value) : M unit :=
  let calendarId := default calendarId (VStr "primary") in
  let! data :=
    remote_call calendar_events_list
      (VObj [("calendarId", calendarId);
             ("timeMin", VStr startOfDay);
             ("timeMax", VStr endOfWeek);
             ("singleEvents", VBool true);
             ("orderBy", VStr "startTime")]) in
  print_events data.

Definition getEvent (eventId calendarId : value) : M unit :=
  let calendarId := default calendarId (VStr "primary") in
  let! data :=
    remote_call calendar_events_get
      (VObj [("calendarId", calendarId); ("eventId", eventId)]) in
  let! ev := lift (formatEvent data) in
  console_log (OutJson ev).

Definition searchEvents (query maxResults calendarId : value) : M unit :=
  let maxResults := default maxResults (VNum 10) in
  let calendarId := default calendarId (VStr "primary") in
  let! data :=
    remote_call calendar_events_list
      (VObj [("calendarId", calendarId);
             ("q", query);
             ("maxResults", parseInt maxResults);
             ("timeMin", VStr (toISOString now));
             ("singleEvents", VBool true);
             ("orderBy", VStr "startTime")]) in
  print_events data.

(** The payload of [createEvent] and [updateEvent]: standard input when the
    path is a single dash, the named file otherwise; parsed as JSON. *)
Definition read_payload (jsonPath : value) : result value :=
  if is_str jsonPath "-" then JSON_parse stdin
  else
    match jsonPath with
    | VStr path => let? text := readFileSync path in JSON_parse text
    | _ => Error TypeError
    end.

Definition createEvent (jsonPath calendarId : value) : M unit :=
  let calendarId := default calendarId (VStr "primary") in
  let! eventData := lift (read_payload jsonPath) in
  let! data :=
    remote_call calendar_events_insert
      (VObj [("calendarId", calendarId);
             ("requestBody", eventData);
             ("sendUpdates", VStr "all")]) in
  print_event "Event created:" data.

Definition quickAdd (text calendarId : value) : M unit :=
  let calendarId := default calendarId (VStr "primary") in
  let! data :=
    remote_call calendar_events_quickAdd
      (VObj [("calendarId", calendarId); ("text", text)]) in
  print_event "Event created:" data.

Definition updateEvent (eventId jsonPath calendarId : value) : M unit :=
  let calendarId := default calendarId (VStr "primary") in
  let! patchData := lift (read_payload jsonPath) in
  let! data :=
    remote_call calendar_events_patch
      (VObj [("calendarId", calendarId);
             ("eventId", eventId);
             ("requestBody", patchData);
             ("sendUpdates", VStr "all")]) in
  print_event "Event updated:" data.

Definition calendar_ref (c : value) : result value :=
  let? id := get c "id" in
  let? summary := get c "summary" in
  let? primary := get c "primary" in
  let? accessRole := get c "accessRole" in
  let? timeZone := get c "timeZone" in
  Ok (VObj
    [("id", id);
     ("summary", summary);
     ("primary", or_else primary (VBool false));
     ("accessRole", accessRole);
     ("timeZone", timeZone)]).

Definition listCalendars : M unit :=
  let! data := remote_call calendar_calendarList_list VUndef in
  let! items := lift (get data "items") in
  let! cals := lift (array_map (or_else items (VArr [])) calendar_ref) in
  console_log (OutJson cals).

Definition usage_default : list string :=
  ["Calendar Helper — Read + Write (No Delete)";
   "Commands: list, today, week, get, search, create, quick, update, calendars";
   "Examples:";
   "  node calendar.js today";
   "  node calendar.js week";
   "  node calendar.js list 20";
   "  node calendar.js search " ++ quoted "standup" ++ " 5";
   "  node calendar.js quick " ++ quoted "Lunch with Alice tomorrow at noon";
   "  node calendar.js create event.json";
   "  node calendar.js update abc123 patch.json";
   "  node calendar.js calendars"].

Definition dispatch (argv : list string) : M unit :=
  let command := arg argv 0 in
  let args := drop 1 argv in
  if is_str command "list" then
    listEvents (arg args 0) (arg args 1)
  else if is_str command "today" then
    todayEvents (arg args 0)
  else if is_str command "week" then
    weekEvents (arg args 0)
  else if is_str command "get" then
    (if negb (truthy (arg args 0)) then
       usage ["Usage: calendar.js get <eventId> [calendarId]"]
     else ret tt) ;;;
    getEvent (arg args 0) (arg args 1)
  else if is_str command "search" then
    (if negb (truthy (arg args 0)) then
       usage ["Usage: calendar.js search <query> [maxResults] [calendarId]"]
     else ret tt) ;;;
    searchEvents (arg args 0) (arg args 1) (arg args 2)
  else if is_str command "create" then
    (if negb (truthy (arg args 0)) then
       usage ["Usage: calendar.js create <jsonFile|-> [calendarId]"]
     else ret tt) ;;;
    createEvent (arg args 0) (arg args 1)
  else if is_str command "quick" then
    (if negb (truthy (arg args 0)) then
       usage ["Usage: calendar.js quick " ++ quoted "<text>" ++ " [calendarId]"]
     else ret tt) ;;;
    quickAdd (VStr (join args)) VUndef
  else if is_str command "update" then
    (if negb (truthy (arg args 0)) || negb (truthy (arg args 1)) then
       usage ["Usage: calendar.js update <eventId> <jsonFile|-> [calendarId]"]
     else ret tt) ;;;
    updateEvent (arg args 0) (arg args 1) (arg args 2)
  else if is_str command "calendars" then
    listCalendars
  else
    usage usage_default.

Definition main (argv : list string) : option Z * world :=
  script (dispatch argv).

End Calendar.
End Calendar.

(** ** Specification-side definitions for the fan-out *)

Section FanOutSpec.
Context {RT : Runtime}.
Variable start : value -> result call.
Variable finish : value -> value -> result value.

(** The requests a fan-out over [items] issues, in order: one per item whose
    arrow function reaches its [await]. *)
Fixpoint requests (items : list value) : list call :=
  match items with
  | [] => []
  | m :: items' =>
      match start m with
      | Ok c => c :: requests items'
      | Error _ => requests items'
      end
  end.

(** The promises of the fan-out when [history] holds the requests issued
    before it. *)
Fixpoint tasks_of (history : list call) (items : list value) : list task :=
  match items with
  | [] => []
  | m :: items' =>
      match start m with
      | Ok c => TPending (remote history c) (finish m) :: tasks_of (history ++ [c]) items'
      | Error e => TRejected e :: tasks_of history items'
      end
  end.

(** The answer to the request [c] of item [i]: the service has seen the
    requests in [history] and those of the items before [i]. *)
Definition answer (history : list call) (items : list value) (i : nat)
    (c : call) : response :=
  remote (history ++ requests (take i items)) c.

End FanOutSpec.

(** A promise in flight that will be fulfilled with [v]. *)
Definition task_yields (t : task) (v : value) : Prop :=
  exists data k, t = TPending (Resolve data) k /\ k data = Ok v.

Definition no_delete (w : world) : Prop :=
  Forall (fun c => is_delete (endpoint_of c) = false) (calls w).

(** A computation is [safe] if it only adds requests to the record, none of
    them to a deletion endpoint. *)
Definition safe {A} (m : M A) : Prop :=
  forall w, exists cs,
    calls (snd (m w)) = (calls w ++ cs)%list /\
    Forall (fun c => is_delete (endpoint_of c) = false) cs.

(** The enumeration request of [listMessages]. *)
Definition messages_request (maxResults query : value) : call :=
  Call gmail_users_messages_list
    (Gmail.list_params (default maxResults (VNum 10)) (default query (VStr ""))).

(** The enumeration request of [listThreads]. *)
Definition threads_request (query maxResults : value) : call :=
  Call gmail_users_threads_list
    (Gmail.list_params (default maxResults (VNum 10)) query).

(** The aggregated list-style operations of the mail script. *)
Inductive aggregated : Type := MailList | MailSearch | MailThreads.

Section Aggregated.
Context {RT : Runtime}.

Definition run_aggregated (op : aggregated) (maxResults query : value) : M unit :=
  match op with
  | MailList => Gmail.listMessages maxResults query
  | MailSearch => Gmail.searchMessages query maxResults
  | MailThreads => Gmail.listThreads query maxResults
  end.

Definition enumeration_of (op : aggregated) (maxResults query : value) : call :=
  match op with
  | MailList | MailSearch => messages_request maxResults query
  | MailThreads => threads_request query maxResults
  end.

(** The property of the enumeration answer that holds the references. *)
Definition references_key (op : aggregated) : string :=
  match op with
  | MailList | MailSearch => "messages"
  | MailThreads => "threads"
  end.

Definition detail_request (op : aggregated) : value -> result call :=
  match op with
  | MailList | MailSearch => Gmail.message_start
  | MailThreads => Gmail.thread_start
  end.

End Aggregated.

(** The fields of a message summary, as [listMessages] builds it from the
    reference [m] and the answer [data] to its detail request. *)
Definition summary_of (m data v : value) : Prop :=
  exists from subject date,
    let headers := or_else (get_opt (prop data "payload") "headers") (VArr []) in
    getHeader headers "From" = Ok from /\
    getHeader headers "Subject" = Ok subject /\
    getHeader headers "Date" = Ok date /\
    v = VObj [("id", prop m "id");
              ("from", from);
              ("subject", subject);
              ("date", date);
              ("snippet", prop data "snippet")].

(** Message parts as the mail service sends them. *)
Definition html_part (data : string) : value :=
  VObj [("mimeType", VStr "text/html"); ("body", VObj [("data", VStr data)])].

Definition plain_part (data : string) : value :=
  VObj [("mimeType", VStr "text/plain"); ("body", VObj [("data", VStr data)])].

Definition multipart (parts : list value) : value :=
  VObj [("mimeType", VStr "multipart/alternative"); ("parts", VArr parts)].

(** The array [vs] holds, entry by entry, the summaries of the references
    [items]: entry [i] is built from reference [i] and from the answer to the
    detail request of reference [i], and has no [threadId]. *)
Definition summaries_of {RT : Runtime} (enumeration : call)
    (items vs : list value) : Prop :=
  length vs = length items /\
  forall i s, vs !! i = Some s ->
    exists m c d,
      items !! i = Some m /\
      Gmail.message_start m = Ok c /\
      answer Gmail.message_start [enumeration] items i c = Resolve d /\
      summary_of m d s /\
      prop s "threadId" = VUndef.

Definition is_string (v : value) : bool :=
  match v with
  | VStr _ => true
  | _ => false
  end.

(** An event projection applied to [formatEvent] once more, when its [start]
    and [end] are strings and its [creator] is a string or [undefined]. *)
Definition renormalized (p : value) : value :=
  VObj
    [("id", prop p "id");
     ("summary", prop p "summary");
     ("description", prop p "description");
     ("location", prop p "location");
     ("start", VStr "");
     ("end", VStr "");
     ("status", prop p "status");
     ("htmlLink", prop p "htmlLink");
     ("creator", VUndef);
     ("attendees", prop p "attendees");
     ("hangoutLink", prop p "hangoutLink");
     ("recurringEventId", prop p "recurringEventId")].

(** The week-end boundary as the specification words it: the first Sunday on
    or after the day of [t], at the last millisecond of that day. *)
Definition upcoming_sunday_end (t : Z) : Z :=
  (Day t + (7 - getDay t) mod 7) * msPerDay + (msPerDay - 1).

(** ** Fixtures: a recording fake of the runtime *)

Module Fixture.

Definition b64_index (c : ascii) : option Z :=
  let n := Z.of_nat (nat_of_ascii c) in
  if (65 <=? n) && (n <=? 90) then Some (n - 65)
  else if (97 <=? n) && (n <=? 122) then Some (n - 71)
  else if (48 <=? n) && (n <=? 57) then Some (n + 4)
  else if n =? 43 then Some 62
  else if n =? 47 then Some 63
  else None.

(** A base64 decoder good enough for ASCII payloads. *)
Fixpoint b64_decode (acc bits : Z) (s : string) : string :=
  match s with
  | EmptyString => EmptyString
  | String c s' =>
      match b64_index c with
      | None => b64_decode acc bits s'
      | Some v =>
          let acc := acc * 64 + v in
          let bits := bits + 6 in
          if 8 <=? bits then
            String (ascii_of_nat (Z.to_nat (acc / 2 ^ (bits - 8))))
                   (b64_decode (acc mod 2 ^ (bits - 8)) (bits - 8) s')
          else b64_decode acc bits s'
      end
  end.

Definition header (name val : string) : value :=
  VObj [("name", VStr name); ("value", VStr val)].

Definition mail_ref (id : string) : value :=
  VObj [("id", VStr id); ("threadId", VStr ("T-" ++ id))].

Definition mail_detail (id : string) : value :=
  VObj
    [("id", VStr id);
     ("threadId", VStr ("T-" ++ id));
     ("snippet", VStr ("Hello from " ++ id));
     ("payload", VObj
        [("headers", VArr
            [header "From" (id ++ "@example.com");
             header "Subject" ("About " ++ id);
             header "Date" "Tue, 3 Nov 2026 09:00:00 +0000"])])].

Definition thread_detail (id : string) : value :=
  VObj [("id", VStr id); ("messages", VArr [mail_detail id])].

Definition inbox : list string := ["A"; "B"; "C"; "D"; "E"].

Definition raw_event : value :=
  VObj
    [("id", VStr "e1");
     ("summary", VStr "Team Standup");
     ("start", VObj [("dateTime", VStr "2026-02-10T09:00:00-08:00")]);
     ("end", VObj [("dateTime", VStr "2026-02-10T09:30:00-08:00")]);
     ("status", VStr "confirmed");
     ("htmlLink", VStr "https://calendar.example/e1");
     ("creator", VObj [("email", VStr "bob@example.com")]);
     ("attendees", VArr
        [VObj [("email", VStr "alice@example.com");
               ("responseStatus", VStr "accepted");
               ("self", VBool false)]])].

(** The fake service: five mails, one of which may be [broken]. *)
Definition service (broken : string) (history : list call) (c : call)
  : response :=
  match endpoint_of c with
  | gmail_users_messages_list =>
      Resolve (VObj [("messages", VArr (List.map mail_ref inbox))])
  | gmail_users_threads_list =>
      Resolve (VObj [("threads", VArr (List.map mail_ref inbox))])
  | gmail_users_messages_get =>
      match prop (params_of c) "id" with
      | VStr id =>
          if String.eqb id broken then Reject "Requested entity was not found."
          else Resolve (mail_detail id)
      | _ => Reject "Invalid id value"
      end
  | gmail_users_threads_get =>
      match prop (params_of c) "id" with
      | VStr id =>
          if String.eqb id broken then Reject "Requested entity was not found."
          else Resolve (thread_detail id)
      | _ => Reject "Invalid id value"
      end
  | calendar_events_quickAdd | calendar_events_get => Resolve raw_event
  | _ => Reject "Not implemented by the fake"
  end.

(** [formatEvent raw_event] *)
Definition projection : value :=
  VObj
    [("id", VStr "e1");
     ("summary", VStr "Team Standup");
     ("description", VStr "");
     ("location", VStr "");
     ("start", VStr "2026-02-10T09:00:00-08:00");
     ("end", VStr "2026-02-10T09:30:00-08:00");
     ("status", VStr "confirmed");
     ("htmlLink", VStr "https://calendar.example/e1");
     ("creator", VStr "bob@example.com");
     ("attendees", VArr
        [VObj [("email", VStr "alice@example.com");
               ("responseStatus", VStr "accepted")]]);
     ("hangoutLink", VStr "");
     ("recurringEventId", VStr "")].

(** [formatMessage (mail_detail id)] *)
Definition mail_projection (id : string) : value :=
  VObj
    [("id", VStr id);
     ("threadId", VStr ("T-" ++ id));
     ("from", VStr (id ++ "@example.com"));
     ("to", VStr "");
     ("subject", VStr ("About " ++ id));
     ("date", VStr "Tue, 3 Nov 2026 09:00:00 +0000");
     ("snippet", VStr ("Hello from " ++ id));
     ("labels", VUndef);
     ("body", VStr "")].

(** The summary the mail list prints for a mail of the fake. *)
Definition summary (id : string) : value :=
  VObj
    [("id", VStr id);
     ("from", VStr (id ++ "@example.com"));
     ("subject", VStr ("About " ++ id));
     ("date", VStr "Tue, 3 Nov 2026 09:00:00 +0000");
     ("snippet", VStr ("Hello from " ++ id))].

(** Answers arrive out of order: E first, then A, C, B, D. *)
Definition out_of_order : list nat := [4; 0; 2; 1; 3]%nat.

(** Sunday 1 November 2026, 10:00 local time. *)
Definition a_sunday : Z := 20758 * msPerDay + 10 * 3600000.

(** Wednesday 4 November 2026, 10:00 local time. *)
Definition a_wednesday : Z := 20761 * msPerDay + 10 * 3600000.

(** The fake runtime: [order] is the order of the answers of a fan-out,
    [broken] the mail whose detail request is rejected (none if empty). *)
Definition runtime (order : list nat) (broken : string) : Runtime :=
  {| now := a_sunday;
     toISOString := fun t => "";
     base64_utf8 := b64_decode 0 0;
     JSON_parse := fun _ => Error SyntaxError;
     readFileSync := fun path => Error (IOError path);
     stdin := "";
     remote := service broken;
     sched := order |}.

Definition healthy : Runtime := runtime out_of_order "".

Definition faulty : Runtime := runtime out_of_order "C".

(** A multipart payload whose rich-text part precedes its plain-text part. *)
Definition html_first : value :=
  multipart [html_part "PHA-aGk8L3A-"; plain_part "aGk="].

End Fixture.

(** ** Further specification-side definitions *)

(** The command tokens of the [switch] of each script. *)
Definition gmail_commands : list string :=
  ["list"; "read"; "search"; "labels"; "threads"].

Definition sheets_commands : list string :=
  ["files"; "read"; "info"; "search"].

Definition calendar_commands : list string :=
  ["list"; "today"; "week"; "get"; "search"; "create"; "quick"; "update";
   "calendars"].

(** The command token of [argv] is one of [commands]. *)
Definition known (commands argv : list string) : bool :=
  match argv with
  | c :: _ => existsb (String.eqb c) commands
  | [] => false
  end.

(** A string in which every single quote comes right after a backslash;
    [escaped] tells whether the previous character is a backslash. *)
Fixpoint quotes_escaped (escaped : bool) (s : string) : bool :=
  match s with
  | EmptyString => true
  | String c s' =>
      if Ascii.eqb c "'" then escaped && quotes_escaped false s'
      else quotes_escaped (Ascii.eqb c "\") s'
  end.

Fixpoint has_quote (s : string) : bool :=
  match s with
  | EmptyString => false
  | String c s' => Ascii.eqb c "'" || has_quote s'
  end.

(** The [body.data] of a message part as the mail service sends it: absent
    or a string. *)
Definition data_ok (payload : value) : bool :=
  match get_opt (prop payload "body") "data" with
  | VUndef | VStr _ => true
  | _ => false
  end.

(** A message part nested at most [depth] deep: an object whose [body.data]
    is absent or a string and whose [parts], if any, is an array of such
    parts. *)
Fixpoint well_formed (depth : nat) (payload : value) : bool :=
  match depth with
  | O => false
  | S d =>
      match payload with
      | VObj fs =>
          data_ok payload &&
          match field fs "parts" with
          | VUndef => true
          | VArr ps => forallb (well_formed d) ps
          | _ => false
          end
      | _ => false
      end
  end.

(** The strings of the model are sequences of 8-bit characters.  A string
    whose characters are all below 128 is the JS string with the same UTF-16
    units: on such strings [toLowerCase] is the method of that name, which
    changes [A]-[Z] only, and [substring] cuts where the method cuts. *)
Fixpoint ascii_only (s : string) : bool :=
  match s with
  | String c s' => Nat.ltb (nat_of_ascii c) 128 && ascii_only s'
  | EmptyString => true
  end.

(** The methods each script calls. *)
Definition gmail_endpoint (e : endpoint) : bool :=
  match e with
  | gmail_users_messages_list | gmail_users_messages_get
  | gmail_users_labels_list
  | gmail_users_threads_list | gmail_users_threads_get => true
  | _ => false
  end.

Definition sheets_endpoint (e : endpoint) : bool :=
  match e with
  | drive_files_list | sheets_spreadsheets_get
  | sheets_spreadsheets_values_get => true
  | _ => false
  end.

Definition calendar_read_endpoint (e : endpoint) : bool :=
  match e with
  | calendar_events_list | calendar_events_get
  | calendar_calendarList_list => true
  | _ => false
  end.

Definition calendar_endpoint (e : endpoint) : bool :=
  calendar_read_endpoint e ||
  match e with
  | calendar_events_insert | calendar_events_quickAdd
  | calendar_events_patch => true
  | _ => false
  end.

(** The command tokens of the calendar script that only read. *)
Definition calendar_read_commands : list string :=
  ["list"; "today"; "week"; "get"; "search"; "calendars"].

(** A computation that only adds requests to endpoints in [allowed]. *)
Definition only (allowed : endpoint -> bool) {A} (m : M A) : Prop :=
  forall w, exists cs,
    calls (snd (m w)) = (calls w ++ cs)%list /\
    Forall (fun c => allowed (endpoint_of c) = true) cs.

Definition requests_within (allowed : endpoint -> bool) (w : world) : Prop :=
  Forall (fun c => allowed (endpoint_of c) = true) (calls w).

(** A computation that keeps the output streams in order: standard output
    only grows; standard error is written exactly when the process exits,
    and then the status is 1. *)
Definition orderly {A} (m : M A) : Prop :=
  forall w,
    (length (stdout w) <= length (stdout (snd (m w))))%nat /\
    match fst (m w) with
    | Exited c => c = 1 /\ (length (stderr w) < length (stderr (snd (m w))))%nat
    | _ => stderr (snd (m w)) = stderr w
    end.

(** A computation that has written to standard output whenever it is done. *)
Definition prints {A} (m : M A) : Prop :=
  forall w,
    match fst (m w) with
    | Done _ => (length (stdout w) < length (stdout (snd (m w))))%nat
    | _ => True
    end.

(** A computation that leaves standard output alone and ends, if not done,
    by an exception or by exit status 1. *)
Definition quiet {A} (m : M A) : Prop :=
  forall w,
    stdout (snd (m w)) = stdout w /\
    match fst (m w) with
    | Done _ | Raised _ => True
    | Exited c => c = 1
    | Stuck => False
    end.

(** A computation that is never done: it ends by an exception or by exit
    status 1, and leaves standard output alone. *)
Definition fails {A} (m : M A) : Prop :=
  forall w,
    stdout (snd (m w)) = stdout w /\
    match fst (m w) with
    | Raised _ => True
    | Exited c => c = 1
    | Done _ | Stuck => False
    end.

(** How a run of a script ended. *)
Definition ended_well (r : option Z * world) : Prop :=
  fst r = Some 0 /\ stderr (snd r) = [] /\ stdout (snd r) <> [].

Definition ended_badly (r : option Z * world) : Prop :=
  fst r = Some 1 /\ stderr (snd r) <> [].

Definition never_ended (r : option Z * world) : Prop :=
  fst r = None /\ stderr (snd r) = [].

(** The notice printed instead of an empty array. *)
Definition nothing_found (op : aggregated) : string :=
  match op with
  | MailList | MailSearch => "No messages found."
  | MailThreads => "No threads found."
  end.

(** The position, among the arguments of a calendar command, of the optional
    calendar argument that the dispatcher passes on. *)
Definition calendar_argument (command : string) : option nat :=
  if String.eqb command "list" then Some 1%nat
  else if String.eqb command "today" then Some 0%nat
  else if String.eqb command "week" then Some 0%nat
  else if String.eqb command "get" then Some 1%nat
  else if String.eqb command "search" then Some 2%nat
  else if String.eqb command "create" then Some 1%nat
  else if String.eqb command "update" then Some 2%nat
  else None.

(** The calendar commands that list events. *)
Definition calendar_list_commands : list string :=
  ["list"; "today"; "week"; "search"].

Definition no_endpoint (e : endpoint) : bool := false.

(** The sheet names [readSheet] computes from the spreadsheet metadata. *)
Definition sheet_titles (meta : value) : result value :=
  let? sheets := get meta "sheets" in
  array_map sheets (fun s => let? p := get s "properties" in get p "title").

(** [sheetNames[0]] *)
Definition first_title (sheetNames : value) : value :=
  match sheetNames with
  | VArr (n :: _) => n
  | _ => VUndef
  end.

(** ** More fixtures *)

Module Demo.

(** A runtime whose service rejects every request. *)
Definition offline : Runtime :=
  {| now := Fixture.a_wednesday;
     toISOString := fun t => "";
     base64_utf8 := Fixture.b64_decode 0 0;
     JSON_parse := fun _ => Error SyntaxError;
     readFileSync := fun path => Error (IOError path);
     stdin := "";
     remote := fun _ _ => Reject "getaddrinfo ENOTFOUND www.googleapis.com";
     sched := [] |}.

(** The text of a patch file, and what it parses to. *)
Definition patch_text : string := "{ summary: X }".

Definition patch : value := VObj [("summary", VStr "X")].

(** A workbook with two sheets. *)
Definition workbook : value :=
  VObj
    [("properties", VObj [("title", VStr "Budget")]);
     ("sheets", VArr
        [VObj [("properties", VObj [("title", VStr "Q1")])];
         VObj [("properties", VObj [("title", VStr "Q2")])]])].

Definition cells (range : value) : value :=
  VObj [("range", range); ("values", VArr [VArr [VStr "a"; VStr "b"]])].

Definition events : value :=
  VObj [("items", VArr [Fixture.raw_event; Fixture.raw_event])].

Definition labels : value :=
  VObj [("labels", VArr
    [VObj [("id", VStr "INBOX"); ("name", VStr "INBOX"); ("type", VStr "system")];
     VObj [("id", VStr "Label_7"); ("name", VStr "Receipts");
           ("type", VStr "user"); ("messagesTotal", VNum 12)]])].

Definition files : value :=
  VObj [("files", VArr
    [VObj [("id", VStr "f1"); ("name", VStr "Budget");
           ("mimeType", VStr "application/vnd.google-apps.spreadsheet");
           ("owners", VArr [VObj [("emailAddress", VStr "bob@example.com")]])];
     VObj [("id", VStr "f2"); ("name", VStr "Notes")]])].

Definition service (history : list call) (c : call) : response :=
  match endpoint_of c with
  | gmail_users_messages_list | gmail_users_threads_list => Resolve (VObj [])
  | calendar_events_list => Resolve events
  | calendar_events_insert | calendar_events_patch | calendar_events_get =>
      Resolve Fixture.raw_event
  | sheets_spreadsheets_get => Resolve workbook
  | sheets_spreadsheets_values_get => Resolve (cells (prop (params_of c) "range"))
  | gmail_users_labels_list => Resolve labels
  | drive_files_list => Resolve files
  | _ => Reject "Not implemented by the fake"
  end.

(** A runtime with one file, [patch.json], the same text on standard input,
    an empty mailbox, a calendar and a workbook. *)
Definition desk : Runtime :=
  {| now := Fixture.a_wednesday;
     toISOString := fun t => "";
     base64_utf8 := Fixture.b64_decode 0 0;
     JSON_parse := fun text =>
       if String.eqb text patch_text then Ok patch else Error SyntaxError;
     readFileSync := fun path =>
       if String.eqb path "patch.json" then Ok patch_text
       else Error (IOError path);
     stdin := patch_text;
     remote := service;
     sched := [] |}.

(** An event of which the service sent only the identifier and an all-day
    start and end. *)
Definition all_day : value :=
  VObj
    [("id", VStr "e2");
     ("start", VObj [("date", VStr "2026-11-03")]);
     ("end", VObj [("date", VStr "2026-11-04")])].

Definition all_day_projection : value :=
  VObj
    [("id", VStr "e2");
     ("summary", VUndef);
     ("description", VStr "");
     ("location", VStr "");
     ("start", VStr "2026-11-03");
     ("end", VStr "2026-11-04");
     ("status", VUndef);
     ("htmlLink", VUndef);
     ("creator", VUndef);
     ("attendees", VArr []);
     ("hangoutLink", VStr "");
     ("recurringEventId", VStr "")].

Definition attachment : value :=
  VObj [("mimeType", VStr "application/pdf");
        ("body", VObj [("attachmentId", VStr "att-1")])].

(** A message with attachments nested two levels deep. *)
Definition nested : value :=
  VObj
    [("mimeType", VStr "multipart/mixed");
     ("parts", VArr
        [multipart [plain_part "aGk="; html_part "PHA-aGk8L3A-"];
         attachment])].

End Demo.

(** The keys of the projection of a full mail message. *)
Definition message_keys : list string :=
  ["id"; "threadId"; "from"; "to"; "subject"; "date"; "snippet"; "labels";
   "body"].

Definition keys (v : value) : list string :=
  match v with
  | VObj fs => List.map fst fs
  | _ => []
  end.

(** A header list as the mail service sends it: absent, or an array of
    objects with a string [name]. *)
Definition headers_ok (headers : value) : bool :=
  match headers with
  | VUndef => true
  | VArr hs => forallb (fun h => is_string (prop h "name") && negb (nullish h)) hs
  | _ => false
  end.

(** The filters of the file listings, for a query text [s]: the text goes
    between single quotes with a backslash before each of its own. *)
Definition filter_by_name (s : string) : string :=
  "trashed = false and (name contains '" ++ replace_all "'" "\'" s ++ "')".

Definition filter_by_name_or_text (s : string) : string :=
  "trashed = false and (name contains '" ++ replace_all "'" "\'" s
  ++ "' or fullText contains '" ++ replace_all "'" "\'" s ++ "')".

Definition file_filter (q : string) : Prop :=
  q = "trashed = false" \/
  exists s, s <> "" /\ (q = filter_by_name s \/ q = filter_by_name_or_text s).

(** Requests for a file listing carry one of these filters. *)
Definition filtered (c : call) : Prop :=
  endpoint_of c = drive_files_list ->
  exists q, prop (params_of c) "q" = VStr q /\ file_filter q.

(** The requests of the [files] and [search] commands. *)
Definition files_request (maxResults : value) (q : string) : call :=
  Call drive_files_list
    (VObj [("pageSize", parseInt (default maxResults (VNum 10)));
           ("fields", VStr Sheets.file_fields);
           ("orderBy", VStr "modifiedTime desc");
           ("q", VStr q)]).

Definition search_request (maxResults : value) (q : string) : call :=
  Call drive_files_list
    (VObj [("pageSize", parseInt (default maxResults (VNum 10)));
           ("fields", VStr Sheets.file_fields);
           ("q", VStr q);
           ("orderBy", VStr "modifiedTime desc")]).

(** The arrow function [listLabels] maps over the labels. *)
Definition label_ref (l : value) : result value :=
  let? id := get l "id" in
  let? name := get l "name" in
  let? type := get l "type" in
  Ok (VObj [("id", id); ("name", name); ("type", type)]).

(** The commands of the file-store script that list files. *)
Definition file_list_commands : list string := ["files"; "search"].

(** * Properties *)

(** ** Time-window helper *)

Section TimeWindow.

Lemma Day_offset (d off : Z) :
  0 <= off < msPerDay -> Day (d * msPerDay + off) = d.
Proof.
  intros H. unfold Day.
  rewrite Z.add_comm, Z.div_add by (unfold msPerDay; lia).
  rewrite Z.div_small by exact H. lia.
Qed.

Lemma Day_setDate_plus (t k : Z) : Day (setDate_plus t k) = Day t + k.
Proof.
  unfold setDate_plus, Day. apply Z.div_add. unfold msPerDay. lia.
Qed.

Lemma getDay_range (t : Z) : 0 <= getDay t < 7.
Proof. unfold getDay. apply Z.mod_pos_bound. lia. Qed.

Lemma endOfWeek_local_eq (t : Z) :
  endOfWeek_local t = (Day t + (7 - getDay t)) * msPerDay + (msPerDay - 1).
Proof.
  unfold endOfWeek_local, setHours.
  rewrite Day_setDate_plus. unfold msPerDay. lia.
Qed.

(** The day the boundary falls on is a Sunday, whatever today is. *)
Lemma endOfWeek_is_sunday (t : Z) : getDay (endOfWeek_local t) = 0.
Proof.
  rewrite endOfWeek_local_eq. unfold getDay at 1.
  rewrite Day_offset by (unfold msPerDay; lia).
  unfold getDay.
  replace (Day t + (7 - (Day t + 4) mod 7) + 4)
    with ((Day t + 4) - (Day t + 4) mod 7 + 1 * 7) by lia.
  rewrite Z.mod_add by lia.
  rewrite Zminus_mod_idemp_r. rewrite Z.sub_diag. reflexivity.
Qed.

(** From Monday to Saturday the boundary is the end of the upcoming Sunday,
    less than a week ahead; on a Wednesday it is four days ahead. *)
Lemma endOfWeek_other_days (t : Z) :
  getDay t <> 0 -> endOfWeek_local t = upcoming_sunday_end t.
Proof.
  intros H. rewrite endOfWeek_local_eq. unfold upcoming_sunday_end.
  pose proof (getDay_range t).
  rewrite (Z.mod_small (7 - getDay t)) by lia. reflexivity.
Qed.

Lemma endOfWeek_wednesday (t : Z) :
  getDay t = 3 -> Day (endOfWeek_local t) = Day t + 4.
Proof.
  intros H. rewrite endOfWeek_local_eq, H.
  apply Day_offset. unfold msPerDay. lia.
Qed.

(** C2: the week-end boundary is the end of the upcoming Sunday, or of today
    when today is a Sunday.  The source misses the Sunday case: when today is
    a Sunday, [endOfWeek] is the last millisecond of the Sunday one week
    later, seven days after the boundary the specification words. *)
Theorem endOfWeek_on_sunday (t : Z) :
  getDay t = 0 ->
  Day (endOfWeek_local t) = Day t + 7 /\
  Day (upcoming_sunday_end t) = Day t /\
  endOfWeek_local t = upcoming_sunday_end t + 7 * msPerDay.
Proof.
  intros H. rewrite endOfWeek_local_eq. unfold upcoming_sunday_end.
  rewrite H. change ((7 - 0) mod 7) with 0.
  rewrite !Day_offset by (unfold msPerDay; lia).
  repeat split; unfold msPerDay; lia.
Qed.

End TimeWindow.

(** ** Mail body decoding *)

Section Body.
Context {RT : Runtime}.

Lemma first_text_chars (s : string) : first_text extractBody (chars s) = Ok "".
Proof. induction s as [|c s IH]; simpl; [reflexivity | exact IH]. Qed.

(** [extractBody] satisfies the recursive equation of the source. *)
Lemma extractBody_unfold (payload : value) :
  extractBody payload = extractBody_body extractBody payload.
Proof.
  destruct payload as [ | | b | n | | s | xs | fs]; try reflexivity.
  unfold extractBody_body, get. simpl.
  destruct (is_str (field fs "mimeType") "text/plain"
            && truthy (get_opt (field fs "body") "data")); [reflexivity |].
  f_equal.
  induction fs as [|[k v] fs IH]; simpl; [reflexivity |].
  destruct (String.eqb k "parts"); [| exact IH].
  destruct v as [ | | b | n | | s | xs | gs]; simpl; try reflexivity.
  rewrite first_text_chars. destruct (String.eqb s ""); reflexivity.
Qed.

(** One unfolding of [extractBody] on a multipart payload, up to the
    recursive call on its first part. *)
Ltac multipart_step :=
  rewrite extractBody_unfold; unfold extractBody_body, multipart, get;
  cbn [nullish prop field String.eqb Ascii.eqb Bool.eqb rbind is_str andb
       truthy negb iterate first_text get_opt].

Lemma nonempty_true (s : string) : s <> "" -> nonempty s = true.
Proof.
  intros H. unfold nonempty. destruct (String.eqb_spec s ""); [contradiction | reflexivity].
Qed.

Lemma extractBody_plain_part (data : string) :
  data <> "" ->
  extractBody (plain_part data)
  = Ok (base64_utf8 (replace_all "_" "/" (replace_all "-" "+" data))).
Proof.
  intros H. simpl. unfold decodeBase64Url. simpl.
  fold (nonempty data). rewrite (nonempty_true _ H). reflexivity.
Qed.

Lemma extractBody_html_part (data : string) :
  data <> "" ->
  extractBody (html_part data)
  = Ok ("[HTML] " ++ substring 0 2000
          (base64_utf8 (replace_all "_" "/" (replace_all "-" "+" data)))).
Proof.
  intros H. simpl. unfold html_fallback, decodeBase64Url. simpl.
  fold (nonempty data). rewrite (nonempty_true _ H). reflexivity.
Qed.

(** When the plain-text part comes first it is the one returned (if it
    decodes to some text). *)
Lemma extractBody_plain_first (p : string) (rest : list value) :
  p <> "" ->
  base64_utf8 (replace_all "_" "/" (replace_all "-" "+" p)) <> "" ->
  extractBody (multipart (plain_part p :: rest))
  = Ok (base64_utf8 (replace_all "_" "/" (replace_all "-" "+" p))).
Proof.
  intros Hp Hd. multipart_step.
  rewrite (extractBody_plain_part _ Hp).
  cbn [rbind]. rewrite (nonempty_true _ Hd).
  cbn [rbind]. rewrite (nonempty_true _ Hd). reflexivity.
Qed.

Lemma substring_length_le (n : nat) (s : string) :
  (String.length (substring 0 n s) <= n)%nat.
Proof.
  revert s. induction n as [|n IH]; intros [|c s]; simpl; try lia.
  specialize (IH s). lia.
Qed.

(** The rich-text fallback is tagged and holds at most 2000 decoded units. *)
Lemma html_fallback_bounded (mimeType data : value) (text : string) :
  html_fallback mimeType data = Ok text ->
  text = "" \/
  exists html, text = "[HTML] " ++ html /\ (String.length html <= 2000)%nat.
Proof.
  unfold html_fallback.
  destruct (is_str mimeType "text/html" && truthy data).
  - destruct (decodeBase64Url data) as [html|e]; simpl; [| discriminate].
    intros [= <-]. right. eexists. split; [reflexivity |].
    apply substring_length_le.
  - intros [= <-]. now left.
Qed.

(** C6: body decoding returns the plain-text part whenever one exists
    anywhere in the payload.  The source returns the first part that yields
    any text: a rich-text part that precedes the plain-text part wins, and
    the tagged, truncated rich text is returned although plain text exists. *)
Theorem extractBody_html_before_plain (h p : string) :
  h <> "" -> p <> "" ->
  extractBody (multipart [html_part h; plain_part p])
  = Ok ("[HTML] " ++ substring 0 2000
          (base64_utf8 (replace_all "_" "/" (replace_all "-" "+" h)))).
Proof.
  intros Hh Hp. multipart_step.
  rewrite (extractBody_html_part _ Hh).
  cbn [rbind nonempty String.eqb append negb]. reflexivity.
Qed.

End Body.

(** ** Response normalizers *)

Section Normalizers.
Context {RT : Runtime}.

Lemma get_object (fs : list (string * value)) (k : string) :
  get (VObj fs) k = Ok (field fs k).
Proof. reflexivity. Qed.

Lemma get_Ok (v x : value) (k : string) :
  get v k = Ok x -> nullish v = false /\ x = prop v k.
Proof.
  unfold get. destruct (nullish v); [discriminate |].
  intros H. injection H as <-. now split.
Qed.

Lemma or_else_idem (a b : value) :
  truthy b = false -> or_else (or_else a b) b = or_else a b.
Proof.
  intros Hb. unfold or_else. destruct (truthy a) eqn:Ha.
  - now rewrite Ha.
  - now rewrite Hb.
Qed.

Lemma format_attendee_again (a b : value) :
  format_attendee a = Ok b -> format_attendee b = Ok b.
Proof.
  unfold format_attendee, get.
  destruct (nullish a); [discriminate |]. simpl. intros [= <-]. reflexivity.
Qed.

Lemma rmap_again (xs ys : list value) :
  rmap format_attendee xs = Ok ys -> rmap format_attendee ys = Ok ys.
Proof.
  revert ys. induction xs as [|x xs IH]; simpl; intros ys.
  - intros [= <-]. reflexivity.
  - destruct (format_attendee x) as [y|e] eqn:Hx; simpl; [| discriminate].
    destruct (rmap format_attendee xs) as [zs|e] eqn:Hxs; simpl; [| discriminate].
    intros [= <-]. simpl.
    rewrite (format_attendee_again _ _ Hx). simpl.
    rewrite (IH zs eq_refl). reflexivity.
Qed.

(** What [formatEvent] returns, when it returns. *)
Lemma formatEvent_shape (ev p : value) :
  formatEvent ev = Ok p ->
  exists atts,
    rmap format_attendee atts = Ok atts /\
    p = VObj
      [("id", prop ev "id");
       ("summary", prop ev "summary");
       ("description", or_else (prop ev "description") (VStr ""));
       ("location", or_else (prop ev "location") (VStr ""));
       ("start", or_else (get_opt (prop ev "start") "dateTime")
                   (or_else (get_opt (prop ev "start") "date") (VStr "")));
       ("end", or_else (get_opt (prop ev "end") "dateTime")
                 (or_else (get_opt (prop ev "end") "date") (VStr "")));
       ("status", prop ev "status");
       ("htmlLink", prop ev "htmlLink");
       ("creator", get_opt (prop ev "creator") "email");
       ("attendees", VArr atts);
       ("hangoutLink", or_else (prop ev "hangoutLink") (VStr ""));
       ("recurringEventId", or_else (prop ev "recurringEventId") (VStr ""))].
Proof.
  unfold formatEvent, get.
  destruct (nullish ev); [discriminate |]. cbn [rbind].
  unfold array_map.
  destruct (or_else (prop ev "attendees") (VArr [])) as [ | | | | | | xs | ];
    try discriminate.
  destruct (rmap format_attendee xs) as [atts|e] eqn:Hxs; [| discriminate].
  cbn [rbind]. intros [= <-].
  exists atts. split; [| reflexivity].
  exact (rmap_again _ _ Hxs).
Qed.

Lemma get_opt_string (v : value) (k : string) :
  is_string v = true -> String.eqb k "length" = false -> get_opt v k = VUndef.
Proof.
  destruct v; try discriminate. intros _ Hk.
  unfold get_opt, prop. cbn [nullish]. now rewrite Hk.
Qed.

(** An event projection with string [start] and [end] and a string or
    absent [creator], normalized once more. *)
Lemma formatEvent_projection (ev p : value) :
  formatEvent ev = Ok p ->
  is_string (prop p "start") = true ->
  is_string (prop p "end") = true ->
  (prop p "creator" = VUndef \/ is_string (prop p "creator") = true) ->
  formatEvent p = Ok (renormalized p).
Proof.
  intros Hev. destruct (formatEvent_shape _ _ Hev) as (atts & Hatts & ->).
  cbn [prop field String.eqb Ascii.eqb Bool.eqb].
  intros Hs He Hc.
  unfold formatEvent, renormalized. rewrite !get_object.
  cbn [prop field String.eqb Ascii.eqb Bool.eqb rbind or_else truthy array_map].
  rewrite Hatts. cbn [rbind].
  rewrite !(get_opt_string _ _ Hs), !(get_opt_string _ _ He) by reflexivity.
  assert (Hc' : get_opt (get_opt (prop ev "creator") "email") "email" = VUndef).
  { destruct Hc as [-> | Hc]; [reflexivity |].
    now rewrite (get_opt_string _ _ Hc). }
  rewrite Hc'.
  rewrite !or_else_idem by reflexivity.
  reflexivity.
Qed.

Lemma formatEvent_renormalized (ev p : value) :
  formatEvent ev = Ok p ->
  formatEvent (renormalized p) = Ok (renormalized p).
Proof.
  intros Hev. destruct (formatEvent_shape _ _ Hev) as (atts & Hatts & ->).
  unfold formatEvent, renormalized. rewrite !get_object.
  cbn [prop field String.eqb Ascii.eqb Bool.eqb rbind or_else truthy array_map
       get_opt nullish].
  rewrite Hatts. cbn [rbind].
  rewrite !or_else_idem by reflexivity.
  reflexivity.
Qed.

Lemma formatMessage_shape (msg p : value) :
  formatMessage msg = Ok p -> exists fs, p = VObj fs /\ field fs "payload" = VUndef.
Proof.
  unfold formatMessage, get.
  destruct (nullish msg); [discriminate |]. cbn [rbind].
  repeat match goal with
         | |- context [rbind ?r _] =>
             destruct r; cbn [rbind]; [| discriminate]
         end.
  intros [= <-]. eexists. split; reflexivity.
Qed.

(** A message projection has no [payload]: [formatMessage] reads its headers
    as empty and then fails in [extractBody]. *)
Lemma formatMessage_projection (msg p : value) :
  formatMessage msg = Ok p -> formatMessage p = Error TypeError.
Proof.
  intros H. destruct (formatMessage_shape _ _ H) as (fs & -> & Hp).
  unfold formatMessage. rewrite !get_object, Hp. reflexivity.
Qed.

(** C7, as amended: a second application of the event normalizer passes id,
    summary, description, location, status, htmlLink, attendees, hangoutLink
    and recurringEventId through unchanged, resets start and end to the empty
    string and creator to undefined (the projection holds strings where the
    raw event holds objects), and from then on changes nothing; a second
    application of the message normalizer to a message projection throws,
    because the projection has no payload. *)
Theorem normalizer_second_pass :
  (forall ev p : value,
     formatEvent ev = Ok p ->
     is_string (prop p "start") = true ->
     is_string (prop p "end") = true ->
     (prop p "creator" = VUndef \/ is_string (prop p "creator") = true) ->
     formatEvent p = Ok (renormalized p) /\
     formatEvent (renormalized p) = Ok (renormalized p)) /\
  (forall msg p : value,
     formatMessage msg = Ok p -> formatMessage p = Error TypeError).
Proof.
  split.
  - intros ev p Hev Hs He Hc. split.
    + now apply (formatEvent_projection ev).
    + now apply (formatEvent_renormalized ev).
  - exact formatMessage_projection.
Qed.

End Normalizers.

(** ** The fan-out aggregator *)

Section FanOut.
Context {RT : Runtime}.

Lemma collect_Some (slots : list (option value)) (vs : list value) :
  collect slots = Some vs -> slots = List.map Some vs.
Proof.
  revert vs. induction slots as [|[v|] slots IH]; simpl; intros vs H.
  - now injection H as <-.
  - destruct (collect slots) as [ws|]; [| discriminate].
    injection H as <-. simpl. f_equal. now apply IH.
  - discriminate.
Qed.

Lemma collect_None (slots : list (option value)) :
  collect slots = None -> exists j, slots !! j = Some None.
Proof.
  induction slots as [|[v|] slots IH]; simpl; intros H.
  - discriminate.
  - destruct (collect slots) as [ws|]; [discriminate |].
    destruct (IH eq_refl) as [j Hj]. now exists (S j).
  - now exists 0%nat.
Qed.

Lemma collect_empty_slot (slots : list (option value)) (j : nat) :
  slots !! j = Some None -> collect slots = None.
Proof.
  revert j. induction slots as [|[v|] slots IH]; intros [|j]; simpl;
    try discriminate; try reflexivity.
  intros H. now rewrite (IH j H).
Qed.

Lemma collect_agrees (slots : list (option value)) (ws vs : list value) :
  collect slots = Some ws ->
  length slots = length vs ->
  (forall j v, slots !! j = Some (Some v) -> vs !! j = Some v) ->
  ws = vs.
Proof.
  intros Hc Hlen Hfilled. apply collect_Some in Hc. subst slots.
  rewrite length_map in Hlen.
  apply list_eq. intros j.
  destruct (ws !! j) as [w|] eqn:Hw.
  - symmetry. apply Hfilled. now rewrite list_lookup_fmap, Hw.
  - symmetry. apply lookup_ge_None in Hw. apply lookup_ge_None. lia.
Qed.

(** Every answer order that answers each request in flight fulfils the
    aggregate with the values in the order of the promises. *)
Lemma join_all_fulfils (tasks : list task) (vs : list value) (order : list nat) :
  Forall2 task_yields tasks vs ->
  forall slots : list (option value),
    length slots = length tasks ->
    (forall j v, slots !! j = Some (Some v) -> vs !! j = Some v) ->
    (forall j, slots !! j = Some None -> j ∈ order) ->
    join_all tasks slots order = Fulfilled vs.
Proof.
  intros Hty. induction order as [|i order IH]; intros slots Hlen Hfilled Hcover.
  - simpl. destruct (collect slots) as [ws|] eqn:Hc.
    + f_equal. apply (collect_agrees slots); try assumption.
      now rewrite Hlen, (Forall2_length _ _ _ Hty).
    + apply collect_None in Hc as [j Hj].
      apply Hcover in Hj. now apply elem_of_nil in Hj.
  - simpl. destruct (collect slots) as [ws|] eqn:Hc.
    + f_equal. apply (collect_agrees slots); try assumption.
      now rewrite Hlen, (Forall2_length _ _ _ Hty).
    + destruct (tasks !! i) as [t|] eqn:Ht.
      * destruct (Forall2_lookup_l _ _ _ _ _ Hty Ht) as (v & Hv & data & k & -> & Hk).
        destruct (slots !! i) as [[w|]|] eqn:Hs.
        -- apply IH; try assumption.
           intros j Hj. specialize (Hcover j Hj).
           apply elem_of_cons in Hcover as [-> |]; [congruence | assumption].
        -- rewrite Hk. apply IH.
           ++ now rewrite length_insert.
           ++ intros j w Hj. destruct (decide (i = j)) as [<- | Hne].
              ** rewrite list_lookup_insert_eq in Hj
                   by (apply lookup_lt_Some in Hs; exact Hs).
                 congruence.
              ** rewrite list_lookup_insert_ne in Hj by exact Hne. now apply Hfilled.
           ++ intros j Hj. destruct (decide (i = j)) as [<- | Hne].
              ** rewrite list_lookup_insert_eq in Hj
                   by (apply lookup_lt_Some in Hs; exact Hs).
                 discriminate.
              ** rewrite list_lookup_insert_ne in Hj by exact Hne.
                 specialize (Hcover j Hj).
                 apply elem_of_cons in Hcover as [-> |]; [congruence | assumption].
        -- apply lookup_ge_None in Hs. apply lookup_lt_Some in Ht. lia.
      * apply IH; try assumption.
        intros j Hj. specialize (Hcover j Hj).
        apply elem_of_cons in Hcover as [-> |]; [| assumption].
        apply lookup_lt_Some in Hj. apply lookup_ge_None in Ht. lia.
Qed.

(** A request in flight that the service rejects is never stored in a slot;
    once every request has been answered the aggregate is rejected. *)
Lemma join_all_rejects (tasks : list task) (i0 : nat) (msg : string)
    (k0 : value -> result value) (order : list nat) :
  tasks !! i0 = Some (TPending (Reject msg) k0) ->
  i0 ∈ order ->
  forall slots : list (option value),
    slots !! i0 = Some None ->
    exists e, join_all tasks slots order = Rejected e.
Proof.
  intros Ht. induction order as [|i order IH]; intros Hin slots Hs.
  - now apply elem_of_nil in Hin.
  - simpl. rewrite (collect_empty_slot _ _ Hs).
    destruct (decide (i = i0)) as [-> | Hne].
    + rewrite Ht, Hs. eauto.
    + apply elem_of_cons in Hin as [-> | Hin]; [congruence |].
      destruct (tasks !! i) as [[e | r k]|]; try (apply IH; assumption).
      destruct (slots !! i) as [[w|]|] eqn:Hi; try (apply IH; assumption).
      destruct r as [data | msg']; [| eauto].
      destruct (k data) as [v | e]; [| eauto].
      apply IH; [assumption |].
      now rewrite list_lookup_insert_ne by exact Hne.
Qed.

(** Whatever the answer order, a fulfilled aggregate holds only values that
    promises of the fan-out were fulfilled with. *)
Lemma join_all_values (P : value -> Prop) (tasks : list task) (order : list nat) :
  (forall i r k data v,
     tasks !! i = Some (TPending r k) -> k data = Ok v -> P v) ->
  forall (slots : list (option value)) (vs : list value),
    (forall j v, slots !! j = Some (Some v) -> P v) ->
    join_all tasks slots order = Fulfilled vs ->
    Forall P vs.
Proof.
  intros Htasks. induction order as [|i order IH]; intros slots vs Hslots; simpl.
  - destruct (collect slots) as [ws|] eqn:Hc; [| discriminate].
    intros [= <-]. apply collect_Some in Hc. subst slots.
    apply Forall_lookup. intros j v Hv. apply (Hslots j).
    now rewrite list_lookup_fmap, Hv.
  - destruct (collect slots) as [ws|] eqn:Hc.
    { intros [= <-]. apply collect_Some in Hc. subst slots.
      apply Forall_lookup. intros j v Hv. apply (Hslots j).
      now rewrite list_lookup_fmap, Hv. }
    destruct (tasks !! i) as [[e | r k]|] eqn:Ht; try (apply IH; assumption).
    destruct (slots !! i) as [[w|]|] eqn:Hi; try (apply IH; assumption).
    destruct r as [data | msg]; [| discriminate].
    destruct (k data) as [v | e] eqn:Hk; [| discriminate].
    apply IH. intros j w Hj.
    destruct (decide (i = j)) as [<- | Hne].
    + rewrite list_lookup_insert_eq in Hj by (apply lookup_lt_Some in Hi; exact Hi).
      injection Hj as <-. exact (Htasks _ _ _ _ _ Ht Hk).
    + rewrite list_lookup_insert_ne in Hj by exact Hne. now apply (Hslots j).
Qed.

End FanOut.

Section FanOutRun.
Context {RT : Runtime}.
Variable start : value -> result call.
Variable finish : value -> value -> result value.

Lemma world_eta (w : world) : World (calls w) (stdout w) (stderr w) = w.
Proof. now destruct w. Qed.

Lemma issue_all_run (items : list value) (w : world) :
  issue_all items start finish w
  = (Done (tasks_of start finish (calls w) items),
     World (calls w ++ requests start items) (stdout w) (stderr w)).
Proof.
  revert w. induction items as [|m items IH]; intros w; simpl.
  - unfold ret. now rewrite app_nil_r, world_eta.
  - unfold bind. destruct (start m) as [c|e].
    + rewrite IH. simpl. unfold ret. now rewrite <- app_assoc.
    + rewrite IH. reflexivity.
Qed.

Lemma tasks_of_length (history : list call) (items : list value) :
  length (tasks_of start finish history items) = length items.
Proof.
  revert history. induction items as [|m items IH]; intros history; simpl.
  - reflexivity.
  - destruct (start m); simpl; now rewrite IH.
Qed.

Lemma tasks_of_lookup (history : list call) (items : list value) (i : nat)
    (m : value) :
  items !! i = Some m ->
  tasks_of start finish history items !! i
  = Some match start m with
         | Ok c => TPending (answer start history items i c) (finish m)
         | Error e => TRejected e
         end.
Proof.
  unfold answer. revert history i.
  induction items as [|m' items IH]; intros history [|i]; simpl; try discriminate.
  - intros [= ->]. destruct (start m); [now rewrite app_nil_r | reflexivity].
  - intros H. destruct (start m') as [c'|e'] eqn:Hm'; simpl.
    + rewrite (IH _ _ H). now rewrite <- app_assoc.
    + exact (IH _ _ H).
Qed.

Lemma first_rejected_yields (tasks : list task) (vs : list value) :
  Forall2 task_yields tasks vs -> first_rejected tasks = None.
Proof.
  induction 1 as [|t v tasks vs (data & k & -> & _) _ IH]; simpl; assumption || reflexivity.
Qed.

Lemma promise_all_fulfils (tasks : list task) (vs : list value) (order : list nat) :
  Forall2 task_yields tasks vs ->
  (forall j, (j < length tasks)%nat -> j ∈ order) ->
  promise_all tasks order = Fulfilled vs.
Proof.
  intros Hty Hcover. unfold promise_all.
  rewrite (first_rejected_yields _ _ Hty).
  apply join_all_fulfils; try assumption.
  - now rewrite length_map.
  - intros j v Hj. rewrite list_lookup_fmap in Hj.
    destruct (tasks !! j); discriminate.
  - intros j Hj. apply Hcover. apply lookup_lt_Some in Hj.
    now rewrite length_map in Hj.
Qed.

Lemma promise_all_rejects (tasks : list task) (i0 : nat) (msg : string)
    (k0 : value -> result value) (order : list nat) :
  tasks !! i0 = Some (TPending (Reject msg) k0) ->
  i0 ∈ order ->
  exists e, promise_all tasks order = Rejected e.
Proof.
  intros Ht Hin. unfold promise_all.
  destruct (first_rejected tasks) as [e|]; [eauto |].
  apply (join_all_rejects tasks i0 msg k0); try assumption.
  now rewrite list_lookup_fmap, Ht.
Qed.

Lemma promise_all_values (P : value -> Prop) (tasks : list task)
    (order : list nat) (vs : list value) :
  (forall i r k data v,
     tasks !! i = Some (TPending r k) -> k data = Ok v -> P v) ->
  promise_all tasks order = Fulfilled vs ->
  Forall P vs.
Proof.
  intros Htasks. unfold promise_all.
  destruct (first_rejected tasks); [discriminate |].
  apply join_all_values; [assumption |].
  intros j v Hj. rewrite list_lookup_fmap in Hj.
  destruct (tasks !! j); discriminate.
Qed.

(** The part of the list operations after the enumeration: fan out over the
    references, then print the array. *)
Lemma aggregate_run (items : list value) (w : world) :
  (let! summaries := fan_out (VArr items) start finish in
   console_log (OutJson summaries)) w
  = let w' := World (calls w ++ requests start items) (stdout w) (stderr w) in
    match promise_all (tasks_of start finish (calls w) items) sched with
    | Fulfilled vs =>
        (Done tt, World (calls w') (stdout w' ++ [OutJson (VArr vs)]) (stderr w'))
    | Rejected e => (Raised e, w')
    | Unsettled => (Stuck, w')
    end.
Proof.
  unfold fan_out, bind. rewrite issue_all_run.
  unfold await.
  destruct (promise_all _ sched); reflexivity.
Qed.

(** If every request of the fan-out is answered and every promise is
    fulfilled, the values can be listed in the order of the items. *)
Lemma all_yield (history : list call) (items : list value) :
  (forall i m, items !! i = Some m ->
     exists c d v,
       start m = Ok c /\
       answer start history items i c = Resolve d /\
       finish m d = Ok v) ->
  exists vs,
    Forall2 task_yields (tasks_of start finish history items) vs /\
    forall i m, items !! i = Some m ->
      exists c d v,
        start m = Ok c /\
        answer start history items i c = Resolve d /\
        finish m d = Ok v /\
        vs !! i = Some v.
Proof.
  unfold answer. revert history.
  induction items as [|m items IH]; intros history H.
  - exists []. split; [constructor | intros i m Hi; discriminate].
  - destruct (H 0%nat m eq_refl) as (c & d & v & Hc & Hd & Hv).
    simpl in Hd. rewrite app_nil_r in Hd.
    destruct (IH (history ++ [c])%list) as (vs & Hty & Hvs).
    { intros i m' Hi. destruct (H (S i) m' Hi) as (c' & d' & v' & Hc' & Hd' & Hv').
      exists c', d', v'. repeat split; try assumption.
      simpl in Hd'. rewrite Hc in Hd'. now rewrite <- app_assoc. }
    exists (v :: vs). split.
    + simpl. rewrite Hc. constructor; [| exact Hty].
      exists d, (finish m). rewrite Hd. now split.
    + intros [|i] m' Hi.
      * injection Hi as <-. exists c, d, v. simpl. rewrite app_nil_r. now repeat split.
      * destruct (Hvs i m' Hi) as (c' & d' & v' & Hc' & Hd' & Hv' & Hl).
        exists c', d', v'. repeat split; try assumption.
        simpl. rewrite Hc. now rewrite <- app_assoc in Hd'.
Qed.

Lemma tasks_of_pending (history : list call) (items : list value) (i : nat)
    (r : response) (k : value -> result value) :
  tasks_of start finish history items !! i = Some (TPending r k) ->
  exists m, k = finish m.
Proof.
  intros H.
  destruct (items !! i) as [m|] eqn:Hi.
  - rewrite (tasks_of_lookup _ _ _ _ Hi) in H.
    destruct (start m); [| discriminate]. injection H as _ <-. now exists m.
  - apply lookup_ge_None in Hi. apply lookup_lt_Some in H.
    rewrite tasks_of_length in H. lia.
Qed.

Lemma aggregate_fulfilled (items : list value) (w : world) :
  (forall i m, items !! i = Some m ->
     exists c d v,
       start m = Ok c /\
       answer start (calls w) items i c = Resolve d /\
       finish m d = Ok v) ->
  (forall j, (j < length items)%nat -> j ∈ sched) ->
  exists vs,
    (let! summaries := fan_out (VArr items) start finish in
     console_log (OutJson summaries)) w
    = (Done tt,
       World (calls w ++ requests start items)
             (stdout w ++ [OutJson (VArr vs)]) (stderr w)) /\
    length vs = length items /\
    forall i m, items !! i = Some m ->
      exists c d v,
        start m = Ok c /\
        answer start (calls w) items i c = Resolve d /\
        finish m d = Ok v /\
        vs !! i = Some v.
Proof.
  intros Hall Hcover.
  destruct (all_yield _ _ Hall) as (vs & Hty & Hvs).
  exists vs. rewrite aggregate_run. cbv zeta.
  rewrite (promise_all_fulfils _ vs).
  - repeat split; [| exact Hvs].
    rewrite <- (Forall2_length _ _ _ Hty). apply tasks_of_length.
  - exact Hty.
  - intros j Hj. apply Hcover. now rewrite tasks_of_length in Hj.
Qed.

Lemma aggregate_rejected (items : list value) (w : world) (i : nat)
    (m : value) (c : call) (msg : string) :
  items !! i = Some m ->
  start m = Ok c ->
  answer start (calls w) items i c = Reject msg ->
  i ∈ sched ->
  exists e,
    (let! summaries := fan_out (VArr items) start finish in
     console_log (OutJson summaries)) w
    = (Raised e,
       World (calls w ++ requests start items) (stdout w) (stderr w)).
Proof.
  intros Hi Hc Hr Hin. rewrite aggregate_run. cbv zeta.
  destruct (promise_all_rejects
              (tasks_of start finish (calls w) items) i msg (finish m) sched)
    as [e He].
  - rewrite (tasks_of_lookup _ _ _ _ Hi), Hc, Hr. reflexivity.
  - exact Hin.
  - exists e. now rewrite He.
Qed.

Lemma aggregate_prints (P : value -> Prop) (items : list value) (w : world)
    (v : value) :
  (forall m d s, finish m d = Ok s -> P s) ->
  In (OutJson v)
     (stdout (snd ((let! summaries := fan_out (VArr items) start finish in
                    console_log (OutJson summaries)) w))) ->
  In (OutJson v) (stdout w) \/ exists vs, v = VArr vs /\ Forall P vs.
Proof.
  intros HP. rewrite aggregate_run. cbv zeta.
  destruct (promise_all _ sched) as [vs | e |] eqn:Hp; simpl; try tauto.
  rewrite in_app_iff. intros [H | [H | []]]; [now left | right].
  injection H as <-. exists vs. split; [reflexivity |].
  apply (promise_all_values P _ _ _ ) in Hp; [exact Hp |].
  intros i r k data s Ht Hk.
  destruct (tasks_of_pending _ _ _ _ _ Ht) as [m ->].
  exact (HP _ _ _ Hk).
Qed.

End FanOutRun.

(** ** Mail operations *)

Section Mail.
Context {RT : Runtime}.

Lemma nonempty_length_nonzero (items : list value) :
  items <> [] -> is_zero (prop (VArr items) "length") = false.
Proof. destruct items; [contradiction | reflexivity]. Qed.

Lemma listMessages_run (maxResults query data : value) (items : list value) :
  remote [] (messages_request maxResults query) = Resolve data ->
  get data "messages" = Ok (VArr items) ->
  items <> [] ->
  Gmail.listMessages maxResults query initial
  = (let! summaries :=
       fan_out (VArr items) Gmail.message_start Gmail.message_finish in
     console_log (OutJson summaries))
      (World [messages_request maxResults query] [] []).
Proof.
  intros Hr Hg Hne. unfold Gmail.listMessages.
  unfold bind at 1. unfold remote_call. cbn [calls initial].
  unfold messages_request in Hr. rewrite Hr.
  unfold bind at 1. unfold lift. rewrite Hg.
  cbn [or_else truthy]. rewrite (nonempty_length_nonzero _ Hne).
  reflexivity.
Qed.

Lemma listThreads_run (query maxResults data : value) (items : list value) :
  remote [] (threads_request query maxResults) = Resolve data ->
  get data "threads" = Ok (VArr items) ->
  items <> [] ->
  Gmail.listThreads query maxResults initial
  = (let! summaries :=
       fan_out (VArr items) Gmail.thread_start Gmail.thread_finish in
     console_log (OutJson summaries))
      (World [threads_request query maxResults] [] []).
Proof.
  intros Hr Hg Hne. unfold Gmail.listThreads.
  unfold bind at 1. unfold remote_call. cbn [calls initial].
  unfold threads_request in Hr. rewrite Hr.
  unfold bind at 1. unfold lift. rewrite Hg.
  cbn [or_else truthy]. rewrite (nonempty_length_nonzero _ Hne).
  reflexivity.
Qed.

Lemma default_default (p d : value) : default (default p d) d = default p d.
Proof. destruct p; try reflexivity. destruct d; reflexivity. Qed.

Lemma searchMessages_listMessages (query maxResults : value) :
  Gmail.searchMessages query maxResults = Gmail.listMessages maxResults query.
Proof.
  unfold Gmail.searchMessages, Gmail.listMessages.
  now rewrite default_default.
Qed.

Lemma covers (order : list nat) (n : nat) :
  order ≡ₚ seq 0 n -> forall j, (j < n)%nat -> j ∈ order.
Proof.
  intros Hp j Hj. rewrite Hp. apply elem_of_seq. lia.
Qed.

(** C4: whatever the order in which the N detail requests are answered, the
    mail list issues the enumeration request and then all N detail requests
    (in enumeration order, before any answer is awaited), and prints one
    array whose entry i is the summary built from reference i and from the
    answer to its own request. *)
Theorem fan_out_preserves_order (maxResults query data : value)
    (items : list value) :
  let enumeration := messages_request maxResults query in
  remote [] enumeration = Resolve data ->
  get data "messages" = Ok (VArr items) ->
  items <> [] ->
  (forall i m, items !! i = Some m ->
     exists c d v,
       Gmail.message_start m = Ok c /\
       answer Gmail.message_start [enumeration] items i c = Resolve d /\
       Gmail.message_finish m d = Ok v) ->
  sched ≡ₚ seq 0 (length items) ->
  exists vs,
    Gmail.listMessages maxResults query initial
    = (Done tt,
       World (enumeration :: requests Gmail.message_start items)
             [OutJson (VArr vs)] []) /\
    length vs = length items /\
    forall i m, items !! i = Some m ->
      exists c d v,
        Gmail.message_start m = Ok c /\
        answer Gmail.message_start [enumeration] items i c = Resolve d /\
        Gmail.message_finish m d = Ok v /\
        vs !! i = Some v.
Proof.
  intros enumeration Hr Hg Hne Hall Hperm.
  rewrite (listMessages_run _ _ _ _ Hr Hg Hne).
  exact (aggregate_fulfilled _ _ items (World [enumeration] [] [])
           Hall (covers _ _ Hperm)).
Qed.

Lemma script_raised (body : M unit) (e : exn) (w : world) :
  body initial = (Raised e, w) ->
  script body = (Some 1, World (calls w) (stdout w) (stderr w ++ [ErrCaught e])).
Proof. intros H. unfold script. now rewrite H. Qed.

(** C5: if one of the detail requests of an aggregated mail operation (list,
    search, threads) is rejected, the process ends with status 1 and nothing
    has been written to standard output, whatever the order of the answers
    and whatever the other requests are answered. *)
Theorem fan_out_all_or_nothing (op : aggregated) (maxResults query data : value)
    (items : list value) (i : nat) (m : value) (c : call) (msg : string) :
  remote [] (enumeration_of op maxResults query) = Resolve data ->
  get data (references_key op) = Ok (VArr items) ->
  sched ≡ₚ seq 0 (length items) ->
  items !! i = Some m ->
  detail_request op m = Ok c ->
  answer (detail_request op) [enumeration_of op maxResults query] items i c
  = Reject msg ->
  exists w,
    script (run_aggregated op maxResults query) = (Some 1, w) /\ stdout w = [].
Proof.
  intros Hr Hg Hperm Hi Hc Ha.
  assert (Hne : items <> []) by (intros ->; discriminate).
  assert (Hin : i ∈ sched).
  { apply (covers _ _ Hperm). now apply lookup_lt_Some in Hi. }
  destruct op; cbn [run_aggregated enumeration_of references_key detail_request] in *.
  - destruct (aggregate_rejected _ Gmail.message_finish items
                (World [messages_request maxResults query] [] []) i m c msg
                Hi Hc Ha Hin) as [e He].
    rewrite <- (listMessages_run _ _ _ _ Hr Hg Hne) in He.
    eexists; (split; [exact (script_raised _ _ _ He) | reflexivity]).
  - destruct (aggregate_rejected _ Gmail.message_finish items
                (World [messages_request maxResults query] [] []) i m c msg
                Hi Hc Ha Hin) as [e He].
    rewrite <- (listMessages_run _ _ _ _ Hr Hg Hne) in He.
    rewrite searchMessages_listMessages.
    eexists; (split; [exact (script_raised _ _ _ He) | reflexivity]).
  - destruct (aggregate_rejected _ Gmail.thread_finish items
                (World [threads_request query maxResults] [] []) i m c msg
                Hi Hc Ha Hin) as [e He].
    rewrite <- (listThreads_run _ _ _ _ Hr Hg Hne) in He.
    eexists; (split; [exact (script_raised _ _ _ He) | reflexivity]).
Qed.

End Mail.

(** ** Requests issued by the dispatchers *)

Section Safety.
Context {RT : Runtime}.

Lemma safe_silent {A} (m : M A) :
  (forall w, calls (snd (m w)) = calls w) -> safe m.
Proof.
  intros H w. exists []. rewrite app_nil_r. split; [apply H | constructor].
Qed.

Lemma safe_ret {A} (a : A) : safe (ret a).
Proof. now apply safe_silent. Qed.

Lemma safe_lift {A} (r : result A) : safe (lift r).
Proof. apply safe_silent. intros w. now destruct r. Qed.

Lemma safe_console_log (l : out_line) : safe (console_log l).
Proof. now apply safe_silent. Qed.

Lemma safe_console_error (s : string) : safe (console_error s).
Proof. now apply safe_silent. Qed.

Lemma safe_process_exit {A} (code : Z) : safe (@process_exit A code).
Proof. now apply safe_silent. Qed.

Lemma safe_await {A} (p : settled A) : safe (await p).
Proof. apply safe_silent. intros w. now destruct p. Qed.

Lemma safe_bind {A B} (m : M A) (k : A -> M B) :
  safe m -> (forall a, safe (k a)) -> safe (bind m k).
Proof.
  intros Hm Hk w. unfold bind.
  destruct (Hm w) as (cs & Hcs & Hsafe).
  destruct (m w) as [[a | e | c |] w'] eqn:Hmw; simpl in Hcs;
    try (exists cs; now split).
  destruct (Hk a w') as (cs' & Hcs' & Hsafe').
  exists (cs ++ cs')%list. split.
  - now rewrite Hcs', Hcs, app_assoc.
  - now apply Forall_app.
Qed.

Lemma safe_usage {A} (lines : list string) : safe (@usage A lines).
Proof.
  induction lines as [|l lines IH]; simpl.
  - apply safe_process_exit.
  - apply safe_bind; [apply safe_console_error | intros _; exact IH].
Qed.

Lemma safe_remote_call (e : endpoint) (params : value) :
  is_delete e = false -> safe (remote_call e params).
Proof.
  intros He w. exists [Call e params]. unfold remote_call.
  destruct (remote (calls w) (Call e params)); simpl;
    (split; [reflexivity | now repeat constructor]).
Qed.

Lemma safe_issue_all (items : list value) (start : value -> result call)
    (finish : value -> value -> result value) :
  (forall m c, start m = Ok c -> is_delete (endpoint_of c) = false) ->
  safe (issue_all items start finish).
Proof.
  intros Hstart w. rewrite issue_all_run. simpl.
  eexists. split; [reflexivity |].
  induction items as [|m items IH]; simpl; [constructor |].
  destruct (start m) as [c|e] eqn:Hm; [| exact IH].
  constructor; [exact (Hstart _ _ Hm) | exact IH].
Qed.

Lemma safe_fan_out (v : value) (start : value -> result call)
    (finish : value -> value -> result value) :
  (forall m c, start m = Ok c -> is_delete (endpoint_of c) = false) ->
  safe (fan_out v start finish).
Proof.
  intros Hstart. unfold fan_out.
  destruct v; try apply safe_lift.
  apply safe_bind; [now apply safe_issue_all | intros tasks].
  apply safe_bind; [apply safe_await | intros vs; apply safe_ret].
Qed.

Lemma safe_start (e : endpoint) (f : value -> call) (get_id : value -> result value) :
  (forall id, endpoint_of (f id) = e) ->
  is_delete e = false ->
  forall m c, (let? id := get_id m in Ok (f id)) = Ok c ->
              is_delete (endpoint_of c) = false.
Proof.
  intros Hf He m c. destruct (get_id m) as [id|]; simpl; [| discriminate].
  intros [= <-]. now rewrite Hf.
Qed.

Lemma message_start_safe (m : value) (c : call) :
  Gmail.message_start m = Ok c -> is_delete (endpoint_of c) = false.
Proof.
  exact (safe_start gmail_users_messages_get
           (Gmail.metadata_request gmail_users_messages_get)
           (fun m => get m "id") (fun _ => eq_refl) eq_refl m c).
Qed.

Lemma thread_start_safe (m : value) (c : call) :
  Gmail.thread_start m = Ok c -> is_delete (endpoint_of c) = false.
Proof.
  exact (safe_start gmail_users_threads_get
           (Gmail.metadata_request gmail_users_threads_get)
           (fun t => get t "id") (fun _ => eq_refl) eq_refl m c).
Qed.

End Safety.

(** Decomposes a [safe] goal along the structure of the computation. *)
Ltac safe_step :=
  lazymatch goal with
  | |- safe (bind _ _) => apply safe_bind; [| intros ?]
  | |- safe (ret _) => apply safe_ret
  | |- safe (lift _) => apply safe_lift
  | |- safe (console_log _) => apply safe_console_log
  | |- safe (usage _) => apply safe_usage
  | |- safe (remote_call _ _) => apply safe_remote_call; reflexivity
  | |- safe (fan_out _ _ _) =>
      apply safe_fan_out;
      first [exact message_start_safe | exact thread_start_safe]
  | |- safe (if ?b then _ else _) => destruct b
  | |- safe (match ?x with _ => _ end) => destruct x
  end.

Ltac safe_auto := repeat safe_step.

Section SafetyOfScripts.
Context {RT : Runtime}.

Lemma gmail_dispatch_safe (argv : list string) : safe (Gmail.dispatch argv).
Proof.
  unfold Gmail.dispatch, Gmail.listMessages, Gmail.readMessage,
    Gmail.searchMessages, Gmail.listMessages, Gmail.listLabels,
    Gmail.listThreads.
  safe_auto.
Qed.

Lemma sheets_dispatch_safe (argv : list string) : safe (Sheets.dispatch argv).
Proof.
  unfold Sheets.dispatch, Sheets.listFiles, Sheets.readSheet, Sheets.sheetInfo,
    Sheets.searchFiles, Sheets.print_files.
  safe_auto.
Qed.

Lemma calendar_dispatch_safe (argv : list string) : safe (Calendar.dispatch argv).
Proof.
  unfold Calendar.dispatch, Calendar.listEvents, Calendar.todayEvents,
    Calendar.weekEvents, Calendar.getEvent, Calendar.searchEvents,
    Calendar.createEvent, Calendar.quickAdd, Calendar.updateEvent,
    Calendar.listCalendars, Calendar.print_events, Calendar.print_event.
  safe_auto.
Qed.

Lemma script_calls (body : M unit) :
  calls (snd (script body)) = calls (snd (body initial)).
Proof.
  unfold script. now destruct (body initial) as [[a | e | c |] w].
Qed.

Lemma script_safe (body : M unit) : safe body -> no_delete (snd (script body)).
Proof.
  intros H. unfold no_delete. rewrite script_calls.
  destruct (H initial) as (cs & -> & Hcs). exact Hcs.
Qed.

(** C1: whatever the command token and the arguments, whatever the service
    answers and in whatever order, no request of the calendar script, the
    mail script or the file-store script goes to a deletion endpoint. *)
Theorem no_delete_request (argv : list string) :
  no_delete (snd (Calendar.main argv)) /\
  no_delete (snd (Gmail.main argv)) /\
  no_delete (snd (Sheets.main argv)).
Proof.
  repeat split; apply script_safe.
  - apply calendar_dispatch_safe.
  - apply gmail_dispatch_safe.
  - apply sheets_dispatch_safe.
Qed.

End SafetyOfScripts.

(** ** Argument handling of the dispatchers *)

Section Dispatch.
Context {RT : Runtime}.

Lemma first_request {A} (e : endpoint) (params : value) (k : value -> M A)
    (w : world) :
  (forall data, safe (k data)) ->
  exists rest,
    calls (snd ((let! data := remote_call e params in k data) w))
    = (calls w ++ Call e params :: rest)%list.
Proof.
  intros Hk. unfold bind, remote_call.
  destruct (remote (calls w) (Call e params)) as [data | msg]; simpl.
  - destruct (Hk data (World (calls w ++ [Call e params]) (stdout w) (stderr w)))
      as (cs & -> & _).
    exists cs. simpl. now rewrite <- app_assoc.
  - now exists [].
Qed.

Lemma ret_then {A} (k : M A) (w : world) : (ret tt ;;; k) w = k w.
Proof. reflexivity. Qed.

Lemma truthy_string (s : string) : s <> "" -> truthy (VStr s) = true.
Proof. intros H. simpl. now apply nonempty_true. Qed.

(** The operations that check their required argument: without it they
    print their own usage line and exit with status 1, and no request has
    been issued. *)
Lemma missing_argument_usage :
  Gmail.main ["read"]
  = (Some 1, World [] [] [ErrText "Usage: gmail.js read <messageId>"]) /\
  Gmail.main ["search"]
  = (Some 1, World [] [] [ErrText "Usage: gmail.js search <query> [maxResults]"]) /\
  Sheets.main ["read"]
  = (Some 1, World [] []
       [ErrText "Usage: sheets.js read <spreadsheetId> [range]";
        ErrText ("  range example: " ++ quoted "Sheet1!A1:D10")]) /\
  Sheets.main ["info"]
  = (Some 1, World [] [] [ErrText "Usage: sheets.js info <spreadsheetId>"]) /\
  Sheets.main ["search"]
  = (Some 1, World [] [] [ErrText "Usage: sheets.js search <query> [maxResults]"]) /\
  Calendar.main ["get"]
  = (Some 1, World [] [] [ErrText "Usage: calendar.js get <eventId> [calendarId]"]) /\
  Calendar.main ["search"]
  = (Some 1, World [] []
       [ErrText "Usage: calendar.js search <query> [maxResults] [calendarId]"]) /\
  Calendar.main ["create"]
  = (Some 1, World [] []
       [ErrText "Usage: calendar.js create <jsonFile|-> [calendarId]"]) /\
  Calendar.main ["quick"]
  = (Some 1, World [] []
       [ErrText ("Usage: calendar.js quick " ++ quoted "<text>" ++ " [calendarId]")]) /\
  Calendar.main ["update"; "abc123"]
  = (Some 1, World [] []
       [ErrText "Usage: calendar.js update <eventId> <jsonFile|-> [calendarId]"]).
Proof. repeat split. Qed.

(** C3: an operation invoked without its required argument issues no request
    and prints its usage line.  The [threads] operation of the mail script
    has no such check: without a query it sends the enumeration request,
    with the default count and no query. *)
Theorem threads_without_query :
  exists rest,
    calls (snd (Gmail.main ["threads"]))
    = Call gmail_users_threads_list
        (VObj [("userId", VStr "me"); ("maxResults", VNum 10)]) :: rest.
Proof.
  unfold Gmail.main. rewrite script_calls.
  change (Gmail.dispatch ["threads"]) with (Gmail.listThreads VUndef VUndef).
  unfold Gmail.listThreads.
  apply (first_request (A := unit) gmail_users_threads_list _ _ initial).
  intros data. safe_auto.
Qed.

Lemma quick_dispatch (text cal : string) :
  text <> "" ->
  Calendar.dispatch ["quick"; text; cal] initial
  = Calendar.quickAdd (VStr (text ++ " " ++ cal)) VUndef initial.
Proof.
  intros H. unfold Calendar.dispatch.
  cbn [arg lookup list_lookup drop is_str String.eqb Ascii.eqb Bool.eqb join].
  rewrite (truthy_string _ H). reflexivity.
Qed.

(** C9: the optional calendar argument of [quick] selects the calendar.  The
    source joins every argument into the quick-add text and never passes a
    calendar: the event is always created on the primary calendar, and the
    calendar argument ends up in the text. *)
Theorem quick_ignores_calendar (text cal : string) :
  text <> "" ->
  exists rest,
    calls (snd (Calendar.main ["quick"; text; cal]))
    = Call calendar_events_quickAdd
        (VObj [("calendarId", VStr "primary");
               ("text", VStr (text ++ " " ++ cal))]) :: rest.
Proof.
  intros H. unfold Calendar.main. rewrite script_calls.
  rewrite (quick_dispatch _ _ H). unfold Calendar.quickAdd.
  apply (first_request (A := unit) calendar_events_quickAdd _ _ initial).
  intros data. unfold Calendar.print_event. safe_auto.
Qed.

(** C10: the mail search operation is the mail list operation with its two
    arguments swapped, as functions of the world they run in; from the
    command line, [search q n] runs as [list n q] does, and [search q] as
    [list 10 q]. *)
Theorem search_is_list_swapped :
  (forall (query maxResults : value) (w : world),
     Gmail.searchMessages query maxResults w
     = Gmail.listMessages maxResults query w) /\
  (forall q n : string,
     q <> "" ->
     Gmail.main ["search"; q; n] = Gmail.main ["list"; n; q] /\
     Gmail.main ["search"; q] = Gmail.main ["list"; "10"; q]).
Proof.
  split.
  - intros query maxResults w. now rewrite searchMessages_listMessages.
  - intros q n H. unfold Gmail.main, Gmail.dispatch, script.
    cbn [arg lookup list_lookup drop is_str String.eqb Ascii.eqb Bool.eqb join].
    rewrite (truthy_string _ H). cbn [negb]. rewrite !ret_then.
    rewrite !searchMessages_listMessages. split; reflexivity.
Qed.

End Dispatch.

(** ** Message summaries *)

Section Summaries.
Context {RT : Runtime}.

Lemma message_finish_summary (m data v : value) :
  Gmail.message_finish m data = Ok v -> summary_of m data v.
Proof.
  unfold Gmail.message_finish, summary_of, get.
  destruct (nullish data); [discriminate |]. cbn [rbind].
  destruct (nullish m); [discriminate |]. cbn [rbind].
  destruct (getHeader _ "From") as [from|]; [| discriminate]. cbn [rbind].
  destruct (getHeader _ "Subject") as [subject|]; [| discriminate]. cbn [rbind].
  destruct (getHeader _ "Date") as [date|]; [| discriminate]. cbn [rbind].
  intros [= <-]. now exists from, subject, date.
Qed.

Lemma summary_no_threadId (m data v : value) :
  summary_of m data v -> prop v "threadId" = VUndef.
Proof. intros (from & subject & date & _ & _ & _ & ->). reflexivity. Qed.

Lemma join_all_yields (tasks : list task) (order : list nat) :
  forall (slots : list (option value)) (vs : list value),
    length slots = length tasks ->
    (forall j v, slots !! j = Some (Some v) ->
       exists t, tasks !! j = Some t /\ task_yields t v) ->
    join_all tasks slots order = Fulfilled vs ->
    Forall2 task_yields tasks vs.
Proof.
  assert (Hdone : forall (slots : list (option value)) (ws : list value),
            length slots = length tasks ->
            (forall j v, slots !! j = Some (Some v) ->
               exists t, tasks !! j = Some t /\ task_yields t v) ->
            collect slots = Some ws -> Forall2 task_yields tasks ws).
  { intros slots ws Hlen Hslots Hc. apply collect_Some in Hc. subst slots.
    rewrite length_map in Hlen.
    apply Forall2_same_length_lookup_2; [now symmetry |].
    intros j t v Ht Hv.
    destruct (Hslots j v) as (t' & Ht' & Hy).
    - now rewrite list_lookup_fmap, Hv.
    - congruence. }
  induction order as [|i order IH]; intros slots vs Hlen Hslots; simpl.
  - destruct (collect slots) as [ws|] eqn:Hc; [| discriminate].
    intros [= <-]. now apply (Hdone slots).
  - destruct (collect slots) as [ws|] eqn:Hc.
    { intros [= <-]. now apply (Hdone slots). }
    destruct (tasks !! i) as [[e | r k]|] eqn:Ht; try (now apply IH).
    destruct (slots !! i) as [[w|]|] eqn:Hi; try (now apply IH).
    destruct r as [data | msg]; [| discriminate].
    destruct (k data) as [v | e] eqn:Hk; [| discriminate].
    apply IH.
    + now rewrite length_insert.
    + intros j w Hj. destruct (decide (i = j)) as [<- | Hne].
      * rewrite list_lookup_insert_eq in Hj by (apply lookup_lt_Some in Hi; exact Hi).
        injection Hj as <-. exists (TPending (Resolve data) k).
        split; [exact Ht |]. now exists data, k.
      * rewrite list_lookup_insert_ne in Hj by exact Hne. now apply Hslots.
Qed.

Lemma promise_all_yields (tasks : list task) (order : list nat)
    (vs : list value) :
  promise_all tasks order = Fulfilled vs -> Forall2 task_yields tasks vs.
Proof.
  unfold promise_all. destruct (first_rejected tasks); [discriminate |].
  apply join_all_yields.
  - now rewrite length_map.
  - intros j v Hj. rewrite list_lookup_fmap in Hj.
    destruct (tasks !! j); discriminate.
Qed.

(** What a fan-out prints, entry by entry. *)
Lemma aggregate_entries (start : value -> result call)
    (finish : value -> value -> result value) (items : list value)
    (w : world) (v : value) :
  In (OutJson v)
     (stdout (snd ((let! summaries := fan_out (VArr items) start finish in
                    console_log (OutJson summaries)) w))) ->
  In (OutJson v) (stdout w) \/
  exists vs,
    v = VArr vs /\
    length vs = length items /\
    forall i s, vs !! i = Some s ->
      exists m c d,
        items !! i = Some m /\
        start m = Ok c /\
        answer start (calls w) items i c = Resolve d /\
        finish m d = Ok s.
Proof.
  rewrite aggregate_run. cbv zeta.
  destruct (promise_all _ sched) as [vs | e |] eqn:Hp; simpl; try tauto.
  rewrite in_app_iff. intros [H | [H | []]]; [now left | right].
  injection H as <-. exists vs. split; [reflexivity |].
  apply promise_all_yields in Hp.
  pose proof (Forall2_length _ _ _ Hp) as Hlen. rewrite tasks_of_length in Hlen.
  split; [now symmetry |].
  intros i s Hs.
  destruct (Forall2_lookup_r _ _ _ _ _ Hp Hs) as (t & Ht & data & k & -> & Hk).
  destruct (items !! i) as [m|] eqn:Hi.
  - rewrite (tasks_of_lookup _ _ _ _ _ _ Hi) in Ht.
    destruct (start m) as [c|e] eqn:Hc; [| discriminate].
    injection Ht as Ha <-. now exists m, c, data.
  - apply lookup_ge_None in Hi. apply lookup_lt_Some in Hs. lia.
Qed.

Lemma listMessages_prints (maxResults query v : value) :
  In (OutJson v) (stdout (snd (Gmail.listMessages maxResults query initial))) ->
  exists data items vs,
    remote [] (messages_request maxResults query) = Resolve data /\
    or_else (prop data "messages") (VArr []) = VArr items /\
    v = VArr vs /\
    summaries_of (messages_request maxResults query) items vs.
Proof.
  unfold Gmail.listMessages.
  unfold bind at 1. unfold remote_call. cbn [calls initial].
  fold (messages_request maxResults query).
  destruct (remote [] _) as [data | msg] eqn:Hr; [| intros []].
  unfold bind at 1. unfold lift, get.
  destruct (nullish data); [intros [] |].
  destruct (is_zero _).
  - intros [H | []]. discriminate.
  - destruct (or_else (prop data "messages") (VArr []))
      as [ | | | | | | items | ] eqn:Hitems; try (intros []).
    intros H. apply aggregate_entries in H.
    destruct H as [[] | (vs & -> & Hlen & Hvs)].
    exists data, items, vs. repeat split; try assumption.
    intros i s Hs. destruct (Hvs i s Hs) as (m & c & d & Hi & Hc & Ha & Hf).
    apply message_finish_summary in Hf.
    exists m, c, d. repeat split; try assumption.
    exact (summary_no_threadId _ _ _ Hf).
Qed.

(** C8, as amended: every entry of the array that the mail list and search
    operations print carries exactly id (of the reference), from, subject
    and date (headers of the detail answer) and snippet (of the detail
    answer); it carries no threadId.  Entry i is built from reference i of
    the enumeration answer and from the answer to the detail request of
    that reference. *)
Theorem summary_attributes (maxResults query v : value) :
  In (OutJson v) (stdout (snd (Gmail.listMessages maxResults query initial)))
  \/ In (OutJson v) (stdout (snd (Gmail.searchMessages query maxResults initial))) ->
  exists data items vs,
    remote [] (messages_request maxResults query) = Resolve data /\
    or_else (prop data "messages") (VArr []) = VArr items /\
    v = VArr vs /\
    summaries_of (messages_request maxResults query) items vs.
Proof.
  rewrite searchMessages_listMessages.
  intros [H | H]; exact (listMessages_prints _ _ _ H).
Qed.

End Summaries.

(** ** The theorems at work on the recording fake *)

Section OnHealthyFake.
#[local] Existing Instance Fixture.healthy.

Lemma out_of_order_perm : Fixture.out_of_order ≡ₚ seq 0 5.
Proof.
  apply (Permutation_cons_app [0; 1; 2; 3]%nat [] 4%nat).
  apply perm_skip. apply perm_swap.
Qed.

Lemma endOfWeek_on_sunday_witness :
  getDay Fixture.a_sunday = 0 /\
  Day (endOfWeek_local Fixture.a_sunday) = Day Fixture.a_sunday + 7 /\
  Day (upcoming_sunday_end Fixture.a_sunday) = Day Fixture.a_sunday /\
  endOfWeek_local Fixture.a_sunday
  = upcoming_sunday_end Fixture.a_sunday + 7 * msPerDay.
Proof.
  split; [reflexivity |].
  apply (endOfWeek_on_sunday Fixture.a_sunday). reflexivity.
Defined.

Lemma extractBody_html_before_plain_witness :
  extractBody Fixture.html_first = Ok "[HTML] <p>hi</p>".
Proof.
  unfold Fixture.html_first.
  rewrite (extractBody_html_before_plain "PHA-aGk8L3A-" "aGk=").
  - reflexivity.
  - discriminate.
  - discriminate.
Defined.

Lemma detail_answers (i : nat) (m : value) :
  List.map Fixture.mail_ref Fixture.inbox !! i = Some m ->
  exists c d v,
    Gmail.message_start m = Ok c /\
    answer Gmail.message_start [messages_request VUndef VUndef]
      (List.map Fixture.mail_ref Fixture.inbox) i c = Resolve d /\
    Gmail.message_finish m d = Ok v.
Proof.
  intros Hi. unfold answer.
  do 5 (destruct i as [|i];
        [injection Hi as <-; do 3 eexists; repeat split; reflexivity |]).
  discriminate.
Qed.

Lemma fan_out_preserves_order_witness :
  exists vs,
    Gmail.listMessages VUndef VUndef initial
    = (Done tt,
       World (messages_request VUndef VUndef
              :: requests Gmail.message_start
                   (List.map Fixture.mail_ref Fixture.inbox))
             [OutJson (VArr vs)] []) /\
    length vs = 5%nat /\
    forall i m, List.map Fixture.mail_ref Fixture.inbox !! i = Some m ->
      exists c d v,
        Gmail.message_start m = Ok c /\
        answer Gmail.message_start
          [messages_request VUndef VUndef]
          (List.map Fixture.mail_ref Fixture.inbox) i c = Resolve d /\
        Gmail.message_finish m d = Ok v /\
        vs !! i = Some v.
Proof.
  apply (fan_out_preserves_order VUndef VUndef
           (VObj [("messages", VArr (List.map Fixture.mail_ref Fixture.inbox))])).
  - reflexivity.
  - reflexivity.
  - discriminate.
  - intros i m Hi. now apply detail_answers.
  - exact out_of_order_perm.
Defined.

End OnHealthyFake.

Section OnFaultyFake.
#[local] Existing Instance Fixture.faulty.

Lemma fan_out_all_or_nothing_witness :
  exists w,
    script (run_aggregated MailThreads VUndef (VStr "is:unread"))
    = (Some 1, w) /\ stdout w = [].
Proof.
  apply (fan_out_all_or_nothing MailThreads VUndef (VStr "is:unread")
           (VObj [("threads", VArr (List.map Fixture.mail_ref Fixture.inbox))])
           (List.map Fixture.mail_ref Fixture.inbox) 2 (Fixture.mail_ref "C")
           (Gmail.metadata_request gmail_users_threads_get (VStr "C"))
           "Requested entity was not found.").
  - reflexivity.
  - reflexivity.
  - exact out_of_order_perm.
  - reflexivity.
  - reflexivity.
  - reflexivity.
Defined.

End OnFaultyFake.

Section Refutations.
#[local] Existing Instance Fixture.healthy.

(** C7, refuted as stated: the projection of an event with a timed start, a
    timed end and a creator is not a fixed point of the normalizer. *)
Lemma formatEvent_not_idempotent :
  formatEvent Fixture.raw_event = Ok Fixture.projection /\
  formatEvent Fixture.projection <> Ok Fixture.projection /\
  formatMessage (Fixture.mail_detail "A")
  = Ok (Fixture.mail_projection "A") /\
  formatMessage (Fixture.mail_projection "A")
  <> Ok (Fixture.mail_projection "A").
Proof.
  repeat split; try reflexivity; vm_compute; discriminate.
Qed.

Lemma normalizer_second_pass_witness :
  formatEvent Fixture.projection = Ok (renormalized Fixture.projection) /\
  formatEvent (renormalized Fixture.projection)
  = Ok (renormalized Fixture.projection) /\
  formatMessage (Fixture.mail_projection "A") = Error TypeError.
Proof.
  destruct (normalizer_second_pass) as [Hevent Hmail].
  destruct (Hevent Fixture.raw_event Fixture.projection) as [H1 H2].
  - reflexivity.
  - reflexivity.
  - reflexivity.
  - right. reflexivity.
  - split; [exact H1 | split; [exact H2 |]].
    apply (Hmail (Fixture.mail_detail "A")). reflexivity.
Defined.

(** C8, refuted as stated: the mail item A has thread id T-A, and the
    summary printed for it has no threadId. *)
Lemma summary_without_threadId :
  exists rest,
    stdout (snd (Gmail.main ["list"]))
    = [OutJson (VArr (Fixture.summary "A" :: rest))] /\
    prop (Fixture.mail_ref "A") "threadId" = VStr "T-A" /\
    prop (Fixture.mail_detail "A") "threadId" = VStr "T-A" /\
    prop (Fixture.summary "A") "threadId" = VUndef /\
    ~ In "threadId" (List.map fst
         [("id", VStr "A");
          ("from", VStr "A@example.com");
          ("subject", VStr "About A");
          ("date", VStr "Tue, 3 Nov 2026 09:00:00 +0000");
          ("snippet", VStr "Hello from A")]).
Proof.
  eexists. split; [vm_compute; reflexivity |].
  repeat split. simpl. intros H.
  repeat (destruct H as [H | H]; [discriminate |]). exact H.
Qed.

Lemma summary_attributes_witness :
  exists data items vs,
    remote [] (messages_request VUndef VUndef) = Resolve data /\
    or_else (prop data "messages") (VArr []) = VArr items /\
    VArr (List.map Fixture.summary Fixture.inbox) = VArr vs /\
    summaries_of (messages_request VUndef VUndef) items vs.
Proof.
  apply (summary_attributes VUndef VUndef).
  left. vm_compute. left. reflexivity.
Defined.

Lemma quick_ignores_calendar_witness :
  exists rest,
    calls (snd (Calendar.main ["quick"; "Lunch"; "work"]))
    = Call calendar_events_quickAdd
        (VObj [("calendarId", VStr "primary"); ("text", VStr "Lunch work")])
      :: rest.
Proof.
  apply (quick_ignores_calendar "Lunch" "work"). discriminate.
Defined.

Lemma search_is_list_swapped_witness :
  Gmail.main ["search"; "subject:invoice"; "10"]
  = Gmail.main ["list"; "10"; "subject:invoice"] /\
  Gmail.main ["search"; "subject:invoice"]
  = Gmail.main ["list"; "10"; "subject:invoice"].
Proof.
  apply (proj2 (search_is_list_swapped)). discriminate.
Defined.

End Refutations.

(** * Further properties *)

(** ** The windows of the today and week queries *)

Section Windows.
Context {RT : Runtime}.

Lemma time_of_day (t : Z) : t = Day t * msPerDay + t mod msPerDay.
Proof.
  unfold Day. pose proof (Z.div_mod t msPerDay). unfold msPerDay in *. lia.
Qed.

(** X1: each window helper reads the clock once.  [startOfDay] gives the
    first millisecond of the local day of its reading, [endOfDay] the last
    millisecond of the local day of its reading, [endOfWeek] the last
    millisecond of a day one to seven days after the day of its reading.
    For two successive readings [t1 <= t2] of the clock, as when the today
    and week commands call [startOfDay] and then [endOfDay] or [endOfWeek]:
    the start computed from [t1] is not after [t1] and on its day, the end
    of day computed from [t2] is not before [t2] and on its day, the start
    is before the end, and the end of week computed from [t2] is a whole
    number of days, one to seven, after the end of day computed from [t2]. *)
Theorem window_bounds (t1 t2 : Z) :
  t1 <= t2 ->
  (startOfDay = toISOString (Day now * msPerDay) /\
   endOfDay = toISOString (Day now * msPerDay + (msPerDay - 1)) /\
   endOfWeek = toISOString ((Day now + (7 - getDay now)) * msPerDay
                            + (msPerDay - 1)) /\
   1 <= 7 - getDay now <= 7) /\
  (setHours t1 0 0 0 0 <= t1 /\ Day (setHours t1 0 0 0 0) = Day t1) /\
  (t2 <= setHours t2 23 59 59 999 /\ Day (setHours t2 23 59 59 999) = Day t2) /\
  setHours t1 0 0 0 0 < setHours t2 23 59 59 999 /\
  exists k, 1 <= k <= 7 /\
            endOfWeek_local t2 = setHours t2 23 59 59 999 + k * msPerDay.
Proof.
  intros Hclock.
  pose proof (time_of_day t1) as Ht1.
  pose proof (time_of_day t2) as Ht2.
  pose proof (Z.mod_pos_bound t1 msPerDay) as Hm1.
  pose proof (Z.mod_pos_bound t2 msPerDay) as Hm2.
  pose proof (getDay_range now) as Hn.
  pose proof (getDay_range t2) as Hd.
  assert (Hday : Day t1 <= Day t2).
  { unfold Day. apply Z.div_le_mono; [reflexivity | exact Hclock]. }
  unfold startOfDay, endOfDay, endOfWeek.
  rewrite !endOfWeek_local_eq. unfold setHours.
  replace (Day now * msPerDay + (0 * 3600000 + 0 * 60000 + 0 * 1000 + 0))
    with (Day now * msPerDay) by lia.
  replace (Day t1 * msPerDay + (0 * 3600000 + 0 * 60000 + 0 * 1000 + 0))
    with (Day t1 * msPerDay + 0) by lia.
  replace (23 * 3600000 + 59 * 60000 + 59 * 1000 + 999) with (msPerDay - 1)
    by reflexivity.
  rewrite !Day_offset by (unfold msPerDay; lia).
  unfold msPerDay in *.
  repeat split; try lia.
  exists (7 - getDay t2). lia.
Qed.

End Windows.

(** ** The event normalizer on partial events *)

Section PartialEvents.

Lemma rmap_Ok {A B} (f : A -> result B) (xs : list A) :
  (exists ys, rmap f xs = Ok ys) <-> Forall (fun x => exists y, f x = Ok y) xs.
Proof.
  induction xs as [|x xs IH]; simpl.
  - split; [constructor | now exists []].
  - split.
    + intros [ys H]. destruct (f x) as [y|e] eqn:Hx; simpl in H; [| discriminate].
      destruct (rmap f xs) as [zs|e] eqn:Hxs; simpl in H; [| discriminate].
      constructor; [now exists y | apply IH; now exists zs].
    + intros H. apply Forall_cons in H as [[y Hy] Hxs].
      apply IH in Hxs as [zs Hzs]. exists (y :: zs). now rewrite Hy, Hzs.
Qed.

Lemma format_attendee_Ok (a : value) :
  (exists b, format_attendee a = Ok b) <-> nullish a = false.
Proof.
  unfold format_attendee, get. destruct (nullish a); simpl.
  - split; [intros [b H]; discriminate | discriminate].
  - split; [reflexivity | intros _; eauto].
Qed.

(** X2: the event normalizer throws exactly when the event itself is
    [undefined] or [null], when its [attendees] is something truthy that is
    not an array, or when one of the attendees is [undefined] or [null];
    the absence of any other field never makes it throw. *)
Theorem formatEvent_succeeds_iff (ev : value) :
  (exists p, formatEvent ev = Ok p) <->
  nullish ev = false /\
  (truthy (prop ev "attendees") = false \/
   exists atts, prop ev "attendees" = VArr atts /\
                Forall (fun a => nullish a = false) atts).
Proof.
  unfold formatEvent, get. destruct (nullish ev); cbn [rbind].
  { split; [intros [p H]; discriminate | intros [H _]; discriminate]. }
  unfold or_else, array_map.
  destruct (truthy (prop ev "attendees")) eqn:Ht.
  - destruct (prop ev "attendees") as [ | | b | n | | s | atts | fs] eqn:Ha;
      try (split; [intros [p H]; discriminate
                  | intros [_ [H | (xs & H & _)]]; discriminate]).
    split.
    + intros [p H]. split; [reflexivity |]. right. exists atts. split; [reflexivity |].
      destruct (rmap format_attendee atts) as [ys|e] eqn:Hr; [| discriminate].
      assert (Hall : Forall (fun x => exists y, format_attendee x = Ok y) atts)
        by (apply rmap_Ok; eauto).
      eapply Forall_impl; [exact Hall |]. intros a Hx. now apply format_attendee_Ok.
    + intros [_ [H | (xs & [= <-] & Hall)]]; [discriminate |].
      assert (Hr : exists ys, rmap format_attendee atts = Ok ys).
      { apply rmap_Ok. eapply Forall_impl; [exact Hall |].
        intros a Hx. now apply format_attendee_Ok. }
      destruct Hr as [ys ->]. cbn [rbind]. eauto.
  - split; [intros _; split; [reflexivity | now left] |].
    intros _. cbn [rmap rbind]. eauto.
Qed.

(** X3: an event without attendees, description and location is projected
    with an empty attendee list and empty strings; an all-day event, which
    has a [date] and no [dateTime], is projected with that date as start and
    end. *)
Theorem formatEvent_defaults (ev p : value) :
  formatEvent ev = Ok p ->
  (prop ev "attendees" = VUndef -> prop p "attendees" = VArr []) /\
  (prop ev "description" = VUndef -> prop p "description" = VStr "") /\
  (prop ev "location" = VUndef -> prop p "location" = VStr "") /\
  (forall d, prop (prop ev "start") "dateTime" = VUndef ->
             prop (prop ev "start") "date" = VStr d -> d <> "" ->
             prop p "start" = VStr d) /\
  (forall d, prop (prop ev "end") "dateTime" = VUndef ->
             prop (prop ev "end") "date" = VStr d -> d <> "" ->
             prop p "end" = VStr d).
Proof.
  unfold formatEvent, get. destruct (nullish ev); cbn [rbind]; [discriminate |].
  destruct (array_map _ format_attendee) as [atts|e] eqn:Ha; [| discriminate].
  cbn [rbind]. intros [= <-].
  cbn [prop field String.eqb Ascii.eqb Bool.eqb].
  repeat split.
  - intros H. rewrite H in Ha. cbn in Ha. now injection Ha as <-.
  - now intros ->.
  - now intros ->.
  - intros d H1 H2 Hd. unfold get_opt.
    destruct (nullish (prop ev "start")) eqn:Hn.
    + destruct (prop ev "start"); discriminate.
    + rewrite H1, H2. unfold or_else. cbn [truthy].
      fold (truthy (VStr d)). now rewrite (truthy_string _ Hd).
  - intros d H1 H2 Hd. unfold get_opt.
    destruct (nullish (prop ev "end")) eqn:Hn.
    + destruct (prop ev "end"); discriminate.
    + rewrite H1, H2. unfold or_else. cbn [truthy].
      fold (truthy (VStr d)). now rewrite (truthy_string _ Hd).
Qed.

End PartialEvents.

(** ** Header lookup *)

Section Headers.

Lemma find_header_case (hs : list value) (name name' : string) :
  toLowerCase name = toLowerCase name' ->
  find_header hs name = find_header hs name'.
Proof.
  intros H. induction hs as [|h hs IH]; simpl; [reflexivity |].
  destruct (get h "name") as [[ | | | | | s | | ]|e]; simpl; try reflexivity.
  now rewrite H, IH.
Qed.

Lemma find_header_missing (hs : list value) (name : string) :
  Forall (fun h => exists s, get h "name" = Ok (VStr s) /\
                             ascii_only s = true /\
                             toLowerCase s <> toLowerCase name) hs ->
  find_header hs name = Ok VUndef.
Proof.
  induction 1 as [|h hs (s & Hs & _ & Hne) _ IH]; simpl; [reflexivity |].
  rewrite Hs. simpl.
  destruct (String.eqb_spec (toLowerCase s) (toLowerCase name)); [contradiction |].
  exact IH.
Qed.

(** X4: on names of characters below 128, header lookup ignores the case of
    the header name on both sides: two requested names that differ only in
    case give the same result, the first header whose name equals the
    requested one up to case supplies the value, and the result is the
    empty string when the header list is missing or no header matches. *)
Theorem getHeader_case_insensitive (name : string) :
  ascii_only name = true ->
  (forall hs name',
     ascii_only name' = true ->
     Forall (fun h => exists s', get h "name" = Ok (VStr s') /\
                                 ascii_only s' = true) hs ->
     toLowerCase name = toLowerCase name' ->
     getHeader (VArr hs) name = getHeader (VArr hs) name') /\
  (forall before fs s rest,
     Forall (fun h => exists s', get h "name" = Ok (VStr s') /\
                                 ascii_only s' = true /\
                                 toLowerCase s' <> toLowerCase name) before ->
     field fs "name" = VStr s ->
     ascii_only s = true ->
     toLowerCase s = toLowerCase name ->
     getHeader (VArr (before ++ VObj fs :: rest)) name = Ok (field fs "value")) /\
  (forall hs,
     Forall (fun h => exists s', get h "name" = Ok (VStr s') /\
                                 ascii_only s' = true /\
                                 toLowerCase s' <> toLowerCase name) hs ->
     getHeader (VArr hs) name = Ok (VStr "")) /\
  getHeader VUndef name = Ok (VStr "").
Proof.
  intros _. repeat split.
  - intros hs name' _ _ H. unfold getHeader.
    cbn [or_else truthy].
    now rewrite (find_header_case _ _ _ H).
  - intros before fs s rest Hb Hn _ Hs. unfold getHeader. cbn [or_else truthy].
    assert (H : find_header (before ++ VObj fs :: rest) name = Ok (VObj fs)).
    { induction Hb as [|h hs (s' & Hs' & _ & Hne) _ IH]; simpl.
      - rewrite Hn, Hs, String.eqb_refl. reflexivity.
      - rewrite Hs'. simpl.
        destruct (String.eqb_spec (toLowerCase s') (toLowerCase name));
          [contradiction | exact IH]. }
    rewrite H. reflexivity.
  - intros hs H. unfold getHeader. cbn [or_else truthy].
    now rewrite (find_header_missing _ _ H).
Qed.

End Headers.

(** ** Mail bodies *)

Section Bodies.
Context {RT : Runtime}.

Lemma substring_prefix (n : nat) (s : string) :
  String.prefix (substring 0 n s) s = true.
Proof.
  revert s. induction n as [|n IH]; intros [|c s]; simpl; try reflexivity.
  destruct (ascii_dec c c); [apply IH | contradiction].
Qed.

Lemma substring_length (n : nat) (s : string) :
  String.length (substring 0 n s) = Nat.min n (String.length s).
Proof.
  revert s. induction n as [|n IH]; intros [|c s]; simpl; try reflexivity.
  now rewrite IH.
Qed.

(** X5: for a rich-text part without sub-parts, the body is the empty
    string when the part has no data, and otherwise the tag followed by the
    first 2000 characters of the decoded text, the whole text when it is
    shorter (for a decoded text of characters below 128). *)
Theorem html_leaf_truncated (payload : value) :
  prop payload "parts" = VUndef ->
  is_str (prop payload "mimeType") "text/html" = true ->
  (truthy (get_opt (prop payload "body") "data") = false ->
   extractBody payload = Ok "") /\
  (forall d,
     get_opt (prop payload "body") "data" = VStr d ->
     d <> "" ->
     let html := base64_utf8 (replace_all "_" "/" (replace_all "-" "+" d)) in
     ascii_only html = true ->
     exists shown,
       extractBody payload = Ok ("[HTML] " ++ shown) /\
       shown = substring 0 2000 html /\
       String.prefix shown html = true /\
       String.length shown = Nat.min 2000 (String.length html)).
Proof.
  intros Hparts Hmime.
  assert (Hp : is_str (prop payload "mimeType") "text/plain" = false).
  { destruct (prop payload "mimeType"); try discriminate.
    simpl in Hmime |- *. apply String.eqb_eq in Hmime. now subst. }
  assert (Hn : nullish payload = false).
  { destruct payload; try reflexivity; discriminate. }
  assert (Hbody : extractBody payload
                  = html_fallback (prop payload "mimeType")
                      (get_opt (prop payload "body") "data")).
  { rewrite extractBody_unfold. unfold extractBody_body, get.
    rewrite Hn. cbn [rbind]. rewrite Hparts, Hp.
    cbn [andb truthy rbind nonempty String.eqb negb]. reflexivity. }
  rewrite Hbody. unfold html_fallback. rewrite Hmime. cbn [andb]. split.
  - intros ->. reflexivity.
  - intros d -> Hd. cbv zeta. intros _. rewrite (truthy_string _ Hd).
    unfold decodeBase64Url. rewrite (truthy_string _ Hd). cbn [negb rbind].
    eexists. split; [reflexivity |]. split; [reflexivity |].
    split; [apply substring_prefix | apply substring_length].
Qed.

Lemma first_text_Ok (parts : list value) :
  Forall (fun p => exists s, extractBody p = Ok s) parts ->
  exists s, first_text extractBody parts = Ok s.
Proof.
  induction 1 as [|p parts [s Hs] _ IH]; simpl; [eauto |].
  rewrite Hs. simpl. destruct (nonempty s); eauto.
Qed.

Lemma decode_data_Ok (payload : value) :
  data_ok payload = true ->
  exists s, decodeBase64Url (get_opt (prop payload "body") "data") = Ok s.
Proof.
  unfold data_ok, decodeBase64Url.
  destruct (get_opt (prop payload "body") "data"); try discriminate; intros _.
  - eauto.
  - destruct (negb (truthy (VStr s))); eauto.
Qed.

Lemma well_formed_extract (depth : nat) (payload : value) :
  well_formed depth payload = true ->
  exists text, extractBody payload = Ok text.
Proof.
  revert payload. induction depth as [|d IH]; intros payload; [discriminate |].
  simpl. destruct payload as [ | | | | | | | fs]; try discriminate.
  intros H. apply andb_prop in H as [Hdata Hparts].
  destruct (decode_data_Ok _ Hdata) as [s Hs]. cbn [prop] in Hs.
  rewrite extractBody_unfold. unfold extractBody_body, get.
  cbn [nullish rbind prop].
  destruct (is_str (field fs "mimeType") "text/plain"
            && truthy (get_opt (field fs "body") "data")); [eauto |].
  assert (Ht : exists t,
             (if truthy (field fs "parts")
              then let? ps := iterate (field fs "parts") in
                   first_text extractBody ps
              else Ok "") = Ok t).
  { destruct (field fs "parts") as [ | | | | | | ps | ]; try discriminate.
    - simpl. eauto.
    - cbn [truthy iterate rbind]. apply first_text_Ok.
      rewrite forallb_forall in Hparts. apply Forall_forall.
      intros p Hp. apply IH. apply Hparts. now apply list_elem_of_In. }
  destruct Ht as [t ->]. cbn [rbind].
  destruct (nonempty t); [eauto |].
  unfold html_fallback.
  destruct (is_str (field fs "mimeType") "text/html"
            && truthy (get_opt (field fs "body") "data")); [| eauto].
  rewrite Hs. cbn [rbind]. eauto.
Qed.

Lemma first_text_skips (before rest : list value) (part : value) (t : string) :
  Forall (fun p => extractBody p = Ok "") before ->
  extractBody part = Ok t -> t <> "" ->
  first_text extractBody (before ++ part :: rest) = Ok t.
Proof.
  intros Hb Hp Ht. induction Hb as [|p before Hp0 _ IH]; simpl.
  - rewrite Hp. simpl. now rewrite (nonempty_true _ Ht).
  - rewrite Hp0. simpl. exact IH.
Qed.

(** X21: in a multipart payload the first part, in the order of the parts,
    that yields any text decides the body: parts before it that yield
    nothing are skipped, parts after it are not looked at. *)
Theorem first_part_with_text (mime : value) (before rest : list value)
    (part : value) (t : string) :
  is_str mime "text/plain" = false ->
  Forall (fun p => extractBody p = Ok "") before ->
  extractBody part = Ok t ->
  t <> "" ->
  extractBody (VObj [("mimeType", mime);
                     ("parts", VArr (before ++ part :: rest))])
  = Ok t.
Proof.
  intros Hm Hb Hp Ht. rewrite extractBody_unfold. unfold extractBody_body, get.
  cbn [nullish prop field String.eqb Ascii.eqb Bool.eqb rbind truthy iterate
       get_opt].
  rewrite Hm. cbn [andb].
  rewrite (first_text_skips _ _ _ _ Hb Hp Ht). cbn [rbind].
  now rewrite (nonempty_true _ Ht).
Qed.

(** X6: body decoding never throws on a payload that is well formed to any
    depth, whatever the MIME types and however the parts nest. *)
Theorem extractBody_never_throws (depth : nat) (payload : value) :
  well_formed depth payload = true ->
  exists text, extractBody payload = Ok text.
Proof. apply well_formed_extract. Qed.

End Bodies.

(** ** Query escaping (sheets.js) *)

Section Escaping.

Lemma quotes_escaped_replace (escaped : bool) (s : string) :
  quotes_escaped escaped (replace_all "'" "\'" s) = true.
Proof.
  revert escaped. induction s as [|c s IH]; intros escaped; simpl; [reflexivity |].
  destruct (Ascii.eqb c "'") eqn:Hc.
  - simpl. apply IH.
  - simpl. rewrite Hc. apply IH.
Qed.

Lemma replace_no_quote (s : string) :
  has_quote s = false -> replace_all "'" "\'" s = s.
Proof.
  induction s as [|c s IH]; simpl; [reflexivity |].
  destruct (Ascii.eqb c "'"); simpl; [discriminate |].
  intros H. now rewrite IH.
Qed.

(** X7: in the query that [files] and [search] splice into the filter of the
    file listing, every single quote comes right after a backslash, and a
    query without single quotes is spliced unchanged; on anything but a
    string the replacement throws. *)
Theorem escape_quotes (query : value) :
  match query with
  | VStr s =>
      exists e, Sheets.escape query = Ok e /\
                quotes_escaped false e = true /\
                (has_quote s = false -> e = s)
  | _ => Sheets.escape query = Error TypeError
  end.
Proof.
  destruct query; try reflexivity.
  eexists. split; [reflexivity |]. split.
  - apply quotes_escaped_replace.
  - apply replace_no_quote.
Qed.

End Escaping.

(** ** Unknown commands *)

Section UnknownCommands.
Context {RT : Runtime}.

Lemma is_str_unknown (commands : list string) (c : string) (args : list string)
    (s : string) :
  known commands (c :: args) = false -> In s commands ->
  is_str (VStr c) s = false.
Proof.
  simpl. intros H Hin.
  destruct (String.eqb_spec c s) as [-> | Hne]; [| reflexivity].
  assert (Ht : existsb (String.eqb s) commands = true).
  { apply existsb_exists. exists s. split; [exact Hin | apply String.eqb_refl]. }
  congruence.
Qed.

(** Rewrites every test of the command token to [false]. *)
Ltac unknown_token H :=
  repeat match goal with
         | |- context [is_str (VStr ?c) ?s] =>
             rewrite (is_str_unknown _ c _ s H) by (simpl; tauto)
         end.

(** X8: a command token that is not in the table of the script, or no
    command token at all, makes the script print its usage listing on
    standard error and exit with status 1; nothing is requested from the
    service and nothing is written to standard output. *)
Theorem unknown_command_usage (argv : list string) :
  (known gmail_commands argv = false ->
   Gmail.main argv = (Some 1, World [] [] (List.map ErrText Gmail.usage_default))) /\
  (known sheets_commands argv = false ->
   Sheets.main argv = (Some 1, World [] [] (List.map ErrText Sheets.usage_default))) /\
  (known calendar_commands argv = false ->
   Calendar.main argv
   = (Some 1, World [] [] (List.map ErrText Calendar.usage_default))).
Proof.
  repeat split; intros H.
  - unfold Gmail.main, Gmail.dispatch. destruct argv as [|c args].
    + reflexivity.
    + cbn [arg lookup list_lookup]. unknown_token H. reflexivity.
  - unfold Sheets.main, Sheets.dispatch. destruct argv as [|c args].
    + reflexivity.
    + cbn [arg lookup list_lookup]. unknown_token H. reflexivity.
  - unfold Calendar.main, Calendar.dispatch. destruct argv as [|c args].
    + reflexivity.
    + cbn [arg lookup list_lookup]. unknown_token H. reflexivity.
Qed.

End UnknownCommands.

(** ** The endpoints each script uses *)

Section Endpoints.
Context {RT : Runtime}.
Variable allowed : endpoint -> bool.

Lemma only_silent {A} (m : M A) :
  (forall w, calls (snd (m w)) = calls w) -> only allowed m.
Proof.
  intros H w. exists []. rewrite app_nil_r. split; [apply H | constructor].
Qed.

Lemma only_ret {A} (a : A) : only allowed (ret a).
Proof. now apply only_silent. Qed.

Lemma only_lift {A} (r : result A) : only allowed (lift r).
Proof. apply only_silent. intros w. now destruct r. Qed.

Lemma only_console_log (l : out_line) : only allowed (console_log l).
Proof. now apply only_silent. Qed.

Lemma only_console_error (s : string) : only allowed (console_error s).
Proof. now apply only_silent. Qed.

Lemma only_await {A} (p : settled A) : only allowed (await p).
Proof. apply only_silent. intros w. now destruct p. Qed.

Lemma only_bind {A B} (m : M A) (k : A -> M B) :
  only allowed m -> (forall a, only allowed (k a)) -> only allowed (bind m k).
Proof.
  intros Hm Hk w. unfold bind.
  destruct (Hm w) as (cs & Hcs & Hall).
  destruct (m w) as [[a | e | c |] w'] eqn:Hmw; simpl in Hcs;
    try (exists cs; now split).
  destruct (Hk a w') as (cs' & Hcs' & Hall').
  exists (cs ++ cs')%list. split.
  - now rewrite Hcs', Hcs, app_assoc.
  - now apply Forall_app.
Qed.

Lemma only_usage {A} (lines : list string) : only allowed (@usage A lines).
Proof.
  induction lines as [|l lines IH]; simpl.
  - now apply only_silent.
  - apply only_bind; [apply only_console_error | intros _; exact IH].
Qed.

Lemma only_remote_call (e : endpoint) (params : value) :
  allowed e = true -> only allowed (remote_call e params).
Proof.
  intros He w. exists [Call e params]. unfold remote_call.
  destruct (remote (calls w) (Call e params)); simpl;
    (split; [reflexivity | now repeat constructor]).
Qed.

Lemma only_fan_out (v : value) (start : value -> result call)
    (finish : value -> value -> result value) :
  (forall m c, start m = Ok c -> allowed (endpoint_of c) = true) ->
  only allowed (fan_out v start finish).
Proof.
  intros Hstart. unfold fan_out.
  destruct v; try apply only_lift.
  apply only_bind; [| intros tasks].
  - intros w. rewrite issue_all_run. simpl.
    eexists. split; [reflexivity |].
    induction xs as [|m items IH]; simpl; [constructor |].
    destruct (start m) as [c|e] eqn:Hm; [| exact IH].
    constructor; [exact (Hstart _ _ Hm) | exact IH].
  - apply only_bind; [apply only_await | intros vs; apply only_ret].
Qed.

Lemma only_script (body : M unit) :
  only allowed body -> requests_within allowed (snd (script body)).
Proof.
  intros H. unfold requests_within. rewrite script_calls.
  destruct (H initial) as (cs & -> & Hcs). exact Hcs.
Qed.

End Endpoints.

Lemma metadata_start (e : endpoint) (m : value) (c : call) :
  (let? id := get m "id" in Ok (Gmail.metadata_request e id)) = Ok c ->
  endpoint_of c = e.
Proof.
  destruct (get m "id") as [id|]; simpl; [| discriminate]. now intros [= <-].
Qed.

(** Decomposes an [only] goal along the structure of the computation. *)
Ltac only_step :=
  lazymatch goal with
  | |- only _ (bind _ _) => apply only_bind; [| intros ?]
  | |- only _ (ret _) => apply only_ret
  | |- only _ (lift _) => apply only_lift
  | |- only _ (console_log _) => apply only_console_log
  | |- only _ (usage _) => apply only_usage
  | |- only _ (remote_call _ _) => apply only_remote_call; reflexivity
  | |- only _ (fan_out _ _ _) =>
      apply only_fan_out;
      let m := fresh "m" in
      let c := fresh "c" in
      let H := fresh "H" in
      intros m c H; apply metadata_start in H; rewrite H; reflexivity
  | |- only _ (if ?b then _ else _) => destruct b
  | |- only _ (match ?x with _ => _ end) => destruct x
  end.

Ltac only_auto := repeat only_step.

Section EndpointsOfScripts.
Context {RT : Runtime}.

Lemma calendar_read_token (c s : string) (args : list string) :
  known calendar_read_commands (c :: args) = true ->
  ~ In s calendar_read_commands ->
  is_str (VStr c) s = false.
Proof.
  simpl. intros H Hs.
  destruct (String.eqb_spec c s) as [-> | Hne]; [| reflexivity].
  exfalso. apply Hs. simpl.
  repeat match type of H with
         | (String.eqb ?a ?b || _)%bool = true =>
             destruct (String.eqb_spec a b) as [-> | _]; [tauto |]; simpl in H
         end.
  discriminate.
Qed.

(** X9: the mail script calls only the list and get methods of messages,
    labels and threads, and the file-store script only the file listing and
    the two spreadsheet reads; the calendar script calls only the methods
    list, get, insert, quickAdd and patch of events and the calendar
    listing, and of these only the three reading ones when the command is
    list, today, week, get, search or calendars. *)
Theorem requests_by_capability (argv : list string) :
  requests_within gmail_endpoint (snd (Gmail.main argv)) /\
  requests_within sheets_endpoint (snd (Sheets.main argv)) /\
  requests_within calendar_endpoint (snd (Calendar.main argv)) /\
  (known calendar_read_commands argv = true ->
   requests_within calendar_read_endpoint (snd (Calendar.main argv))).
Proof.
  repeat split.
  - apply only_script.
    unfold Gmail.dispatch, Gmail.listMessages, Gmail.readMessage,
      Gmail.searchMessages, Gmail.listMessages, Gmail.listLabels,
      Gmail.listThreads, Gmail.message_start, Gmail.thread_start.
    only_auto.
  - apply only_script.
    unfold Sheets.dispatch, Sheets.listFiles, Sheets.readSheet, Sheets.sheetInfo,
      Sheets.searchFiles, Sheets.print_files.
    only_auto.
  - apply only_script.
    unfold Calendar.dispatch, Calendar.listEvents, Calendar.todayEvents,
      Calendar.weekEvents, Calendar.getEvent, Calendar.searchEvents,
      Calendar.createEvent, Calendar.quickAdd, Calendar.updateEvent,
      Calendar.listCalendars, Calendar.print_events, Calendar.print_event.
    only_auto.
  - intros H. apply only_script. destruct argv as [|c args]; [discriminate |].
    unfold Calendar.dispatch. cbn [arg lookup list_lookup].
    rewrite (calendar_read_token c "create" args H) by (simpl; intuition discriminate).
    rewrite (calendar_read_token c "quick" args H) by (simpl; intuition discriminate).
    rewrite (calendar_read_token c "update" args H) by (simpl; intuition discriminate).
    unfold Calendar.listEvents, Calendar.todayEvents,
      Calendar.weekEvents, Calendar.getEvent, Calendar.searchEvents,
      Calendar.listCalendars, Calendar.print_events.
    only_auto.
Qed.

End EndpointsOfScripts.

(** ** Exit status and output streams *)

Section Streams.
Context {RT : Runtime}.

Lemma usage_run {A} (lines : list string) (w : world) :
  @usage A lines w
  = (Exited 1,
     World (calls w) (stdout w) (stderr w ++ List.map ErrText lines)).
Proof.
  revert w. induction lines as [|l lines IH]; intros w; simpl.
  - unfold process_exit. now rewrite app_nil_r, world_eta.
  - unfold bind, console_error. rewrite IH. simpl. now rewrite <- app_assoc.
Qed.

Lemma orderly_still {A} (m : M A) :
  (forall w, snd (m w) = w /\
             match fst (m w) with Exited _ => False | _ => True end) ->
  orderly m.
Proof.
  intros H w. destruct (H w) as [Hw Ho]. rewrite Hw. split; [lia |].
  destruct (fst (m w)); try reflexivity. contradiction.
Qed.

Lemma orderly_ret {A} (a : A) : orderly (ret a).
Proof. apply orderly_still. now intros w. Qed.

Lemma orderly_lift {A} (r : result A) : orderly (lift r).
Proof. apply orderly_still. intros w. now destruct r. Qed.

Lemma orderly_await {A} (p : settled A) : orderly (await p).
Proof. apply orderly_still. intros w. now destruct p. Qed.

Lemma orderly_console_log (l : out_line) : orderly (console_log l).
Proof. intros w. simpl. rewrite length_app. split; [lia | reflexivity]. Qed.

Lemma orderly_usage {A} (lines : list string) :
  lines <> [] -> orderly (@usage A lines).
Proof.
  intros Hne w. rewrite usage_run. simpl. split; [lia |]. split; [reflexivity |].
  rewrite length_app, length_map. destruct lines; [contradiction | simpl; lia].
Qed.

Lemma orderly_remote_call (e : endpoint) (params : value) :
  orderly (remote_call e params).
Proof.
  intros w. unfold remote_call.
  destruct (remote (calls w) (Call e params)); simpl; split; (lia || reflexivity).
Qed.

Lemma orderly_bind {A B} (m : M A) (k : A -> M B) :
  orderly m -> (forall a, orderly (k a)) -> orderly (bind m k).
Proof.
  intros Hm Hk w. unfold bind.
  destruct (Hm w) as [Hout Herr].
  destruct (m w) as [[a | e | c |] w1]; simpl in *; try (split; assumption).
  destruct (Hk a w1) as [Hout' Herr'].
  split; [lia |].
  rewrite Herr in Herr'. exact Herr'.
Qed.

Lemma orderly_fan_out (v : value) (start : value -> result call)
    (finish : value -> value -> result value) :
  orderly (fan_out v start finish).
Proof.
  unfold fan_out. destruct v; try apply orderly_lift.
  apply orderly_bind; [| intros tasks].
  - intros w. rewrite issue_all_run. simpl. split; [lia | reflexivity].
  - apply orderly_bind; [apply orderly_await | intros vs; apply orderly_ret].
Qed.

Lemma prints_console_log (l : out_line) : prints (console_log l).
Proof. intros w. simpl. rewrite length_app. simpl. lia. Qed.

Lemma prints_usage {A} (lines : list string) : prints (@usage A lines).
Proof. intros w. now rewrite usage_run. Qed.

Lemma prints_bind {A B} (m : M A) (k : A -> M B) :
  orderly m -> (forall a, prints (k a)) -> prints (bind m k).
Proof.
  intros Hm Hk w. unfold bind.
  destruct (Hm w) as [Hout _].
  destruct (m w) as [[a | e | c |] w1]; simpl in *; try exact I.
  specialize (Hk a w1). destruct (fst (k a w1)); try exact I. lia.
Qed.

Lemma script_ends (body : M unit) :
  orderly body -> prints body ->
  ended_well (script body) \/ ended_badly (script body)
  \/ never_ended (script body).
Proof.
  intros Ho Hp. unfold script, ended_well, ended_badly, never_ended.
  destruct (Ho initial) as [_ Herr]. specialize (Hp initial).
  destruct (body initial) as [[a | e | c |] w]; simpl in *.
  - left. split; [reflexivity |]. split; [exact Herr |].
    intros H. rewrite H in Hp. simpl in Hp. lia.
  - right. left. split; [reflexivity |].
    intros H. apply app_eq_nil in H as [_ H]. discriminate.
  - right. left. destruct Herr as [-> Hlen]. split; [reflexivity |].
    intros H. rewrite H in Hlen. simpl in Hlen. lia.
  - right. right. now split.
Qed.

End Streams.

Ltac orderly_step :=
  lazymatch goal with
  | |- orderly (bind _ _) => apply orderly_bind; [| intros ?]
  | |- orderly (ret _) => apply orderly_ret
  | |- orderly (lift _) => apply orderly_lift
  | |- orderly (console_log _) => apply orderly_console_log
  | |- orderly (usage _) => apply orderly_usage; discriminate
  | |- orderly (remote_call _ _) => apply orderly_remote_call
  | |- orderly (fan_out _ _ _) => apply orderly_fan_out
  | |- orderly (if ?b then _ else _) => destruct b
  | |- orderly (match ?x with _ => _ end) => destruct x
  end.

Ltac prints_step :=
  lazymatch goal with
  | |- prints (bind _ _) => apply prints_bind; [repeat orderly_step | intros ?]
  | |- prints (console_log _) => apply prints_console_log
  | |- prints (usage _) => apply prints_usage
  | |- prints (if ?b then _ else _) => destruct b
  | |- prints (match ?x with _ => _ end) => destruct x
  end.

Ltac unfold_operations :=
  unfold Gmail.dispatch, Gmail.listMessages, Gmail.readMessage,
    Gmail.searchMessages, Gmail.listMessages, Gmail.listLabels,
    Gmail.listThreads,
    Sheets.dispatch, Sheets.listFiles, Sheets.readSheet, Sheets.sheetInfo,
    Sheets.searchFiles, Sheets.print_files,
    Calendar.dispatch, Calendar.listEvents, Calendar.todayEvents,
    Calendar.weekEvents, Calendar.getEvent, Calendar.searchEvents,
    Calendar.createEvent, Calendar.quickAdd, Calendar.updateEvent,
    Calendar.listCalendars, Calendar.print_events, Calendar.print_event.

Section StreamsOfScripts.
Context {RT : Runtime}.

(** X10: every run of each script ends in one of three ways: with status 0,
    something on standard output and nothing on standard error; with status
    1 and something on standard error; or not at all (a request of a fan-out
    is never answered), with nothing on standard error.  No other exit
    status occurs. *)
Theorem exit_status_and_streams (argv : list string) :
  (ended_well (Gmail.main argv) \/ ended_badly (Gmail.main argv)
   \/ never_ended (Gmail.main argv)) /\
  (ended_well (Sheets.main argv) \/ ended_badly (Sheets.main argv)
   \/ never_ended (Sheets.main argv)) /\
  (ended_well (Calendar.main argv) \/ ended_badly (Calendar.main argv)
   \/ never_ended (Calendar.main argv)).
Proof.
  repeat split; apply script_ends; unfold_operations;
    solve [repeat orderly_step | repeat prints_step].
Qed.

End StreamsOfScripts.

(** ** When the service rejects every request *)

Section ServiceDown.
Context {RT : Runtime}.
Hypothesis down : forall history c, exists msg, remote history c = Reject msg.

Lemma fails_remote_call (e : endpoint) (params : value) :
  fails (remote_call e params).
Proof.
  intros w. unfold remote_call.
  destruct (down (calls w) (Call e params)) as [msg ->]. now split.
Qed.

Lemma fails_usage {A} (lines : list string) : fails (@usage A lines).
Proof. intros w. rewrite usage_run. now split. Qed.

Lemma quiet_ret {A} (a : A) : quiet (ret a).
Proof. now intros w. Qed.

Lemma quiet_lift {A} (r : result A) : quiet (lift r).
Proof. intros w. now destruct r. Qed.

Lemma fails_bind_l {A B} (m : M A) (k : A -> M B) :
  fails m -> fails (bind m k).
Proof.
  intros Hm w. unfold bind. destruct (Hm w) as [Hout Ho].
  destruct (m w) as [[a | e | c |] w1]; simpl in *; try contradiction; now split.
Qed.

Lemma fails_bind_quiet {A B} (m : M A) (k : A -> M B) :
  quiet m -> (forall a, fails (k a)) -> fails (bind m k).
Proof.
  intros Hm Hk w. unfold bind. destruct (Hm w) as [Hout Ho].
  destruct (m w) as [[a | e | c |] w1]; simpl in *; try contradiction;
    try now split.
  destruct (Hk a w1) as [Hout' Ho']. split; [congruence | exact Ho'].
Qed.

Lemma script_fails (body : M unit) :
  fails body ->
  fst (script body) = Some 1 /\ stdout (snd (script body)) = [].
Proof.
  intros H. unfold script. destruct (H initial) as [Hout Ho].
  destruct (body initial) as [[a | e | c |] w]; simpl in *; try contradiction.
  - now split.
  - subst c. now split.
Qed.

Ltac fails_step :=
  lazymatch goal with
  | |- fails (bind (if ?b then _ else _) _) => destruct b
  | |- fails (bind (remote_call _ _) _) =>
      apply fails_bind_l; apply fails_remote_call
  | |- fails (bind (usage _) _) => apply fails_bind_l; apply fails_usage
  | |- fails (bind (ret _) _) =>
      apply fails_bind_quiet; [apply quiet_ret | intros ?]
  | |- fails (bind (lift _) _) =>
      apply fails_bind_quiet; [apply quiet_lift | intros ?]
  | |- fails (usage _) => apply fails_usage
  | |- fails (if ?b then _ else _) => destruct b
  end.

(** X11: when the service rejects every request, every invocation of each
    script ends with status 1 and has written nothing to standard output,
    whatever the command and its arguments. *)
Theorem service_down_status (argv : list string) :
  (fst (Gmail.main argv) = Some 1 /\ stdout (snd (Gmail.main argv)) = []) /\
  (fst (Sheets.main argv) = Some 1 /\ stdout (snd (Sheets.main argv)) = []) /\
  (fst (Calendar.main argv) = Some 1 /\ stdout (snd (Calendar.main argv)) = []).
Proof.
  repeat apply conj; apply script_fails; unfold_operations; repeat fails_step.
Qed.

End ServiceDown.

(** ** More on the aggregated mail operations *)

Section MoreMail.
Context {RT : Runtime}.

(** X12: the thread listing, too, prints its summaries in the order of the
    enumeration whatever the order of the answers: all detail requests are
    issued, in enumeration order, and entry i of the printed array is built
    from thread reference i and the answer to its own request. *)
Theorem threads_preserve_order (query maxResults data : value)
    (items : list value) :
  let enumeration := threads_request query maxResults in
  remote [] enumeration = Resolve data ->
  get data "threads" = Ok (VArr items) ->
  items <> [] ->
  (forall i t, items !! i = Some t ->
     exists c d v,
       Gmail.thread_start t = Ok c /\
       answer Gmail.thread_start [enumeration] items i c = Resolve d /\
       Gmail.thread_finish t d = Ok v) ->
  sched ≡ₚ seq 0 (length items) ->
  exists vs,
    Gmail.listThreads query maxResults initial
    = (Done tt,
       World (enumeration :: requests Gmail.thread_start items)
             [OutJson (VArr vs)] []) /\
    length vs = length items /\
    forall i t, items !! i = Some t ->
      exists c d v,
        Gmail.thread_start t = Ok c /\
        answer Gmail.thread_start [enumeration] items i c = Resolve d /\
        Gmail.thread_finish t d = Ok v /\
        vs !! i = Some v.
Proof.
  intros enumeration Hr Hg Hne Hall Hperm.
  rewrite (listThreads_run _ _ _ _ Hr Hg Hne).
  exact (aggregate_fulfilled _ _ items (World [enumeration] [] [])
           Hall (covers _ _ Hperm)).
Qed.

(** X13: when the enumeration answers with no references (the property is
    missing, falsy, or an empty array), list, search and threads issue no
    detail request, print their one-line notice instead of an array, and
    end with status 0. *)
Theorem empty_enumeration (op : aggregated) (maxResults query data refs : value) :
  remote [] (enumeration_of op maxResults query) = Resolve data ->
  get data (references_key op) = Ok refs ->
  truthy refs = false \/ refs = VArr [] ->
  script (run_aggregated op maxResults query)
  = (Some 0,
     World [enumeration_of op maxResults query] [OutText (nothing_found op)] []).
Proof.
  intros Hr Hg Hrefs.
  assert (Hz : is_zero (prop (or_else refs (VArr [])) "length") = true).
  { unfold or_else. destruct Hrefs as [-> | ->]; reflexivity. }
  destruct op; cbn [run_aggregated enumeration_of references_key nothing_found] in *.
  - unfold script, Gmail.listMessages. unfold bind at 1. unfold remote_call.
    cbn [calls initial]. unfold messages_request in Hr. rewrite Hr.
    unfold bind at 1. unfold lift. rewrite Hg, Hz. reflexivity.
  - rewrite searchMessages_listMessages.
    unfold script, Gmail.listMessages. unfold bind at 1. unfold remote_call.
    cbn [calls initial]. unfold messages_request in Hr. rewrite Hr.
    unfold bind at 1. unfold lift. rewrite Hg, Hz. reflexivity.
  - unfold script, Gmail.listThreads. unfold bind at 1. unfold remote_call.
    cbn [calls initial]. unfold threads_request in Hr. rewrite Hr.
    unfold bind at 1. unfold lift. rewrite Hg, Hz. reflexivity.
Qed.

End MoreMail.

(** ** Requests of the calendar script *)

Section CalendarRequests.
Context {RT : Runtime}.

Lemma only_nothing {A} (m : M A) (w : world) :
  only no_endpoint m -> calls (snd (m w)) = calls w.
Proof.
  intros H. destruct (H w) as (cs & -> & Hcs).
  destruct cs as [|c cs]; [now rewrite app_nil_r |].
  apply Forall_cons in Hcs as [Hc _]. discriminate.
Qed.

Lemma one_request {A} (e : endpoint) (params : value) (k : value -> M A)
    (w : world) :
  (forall data, only no_endpoint (k data)) ->
  calls (snd ((let! data := remote_call e params in k data) w))
  = (calls w ++ [Call e params])%list.
Proof.
  intros Hk. unfold bind, remote_call.
  destruct (remote (calls w) (Call e params)) as [data | msg]; simpl.
  - now rewrite (only_nothing _ _ (Hk data)).
  - reflexivity.
Qed.

Lemma print_events_silent (data : value) : only no_endpoint (Calendar.print_events data).
Proof. unfold Calendar.print_events. only_auto. Qed.

Lemma print_event_silent (banner : string) (data : value) :
  only no_endpoint (Calendar.print_event banner data).
Proof. unfold Calendar.print_event. only_auto. Qed.

Lemma guarded_calls {A} (b : bool) (lines : list string) (op : M A) :
  calls (snd (((if b then usage lines else ret tt) ;;; op) initial))
  = if b then [] else calls (snd (op initial)).
Proof.
  destruct b; [| reflexivity].
  unfold bind. now rewrite usage_run.
Qed.

Lemma lifted_calls {A B} (r : result A) (k : A -> M B) (w : world) :
  calls (snd ((let! a := lift r in k a) w))
  = match r with
    | Ok a => calls (snd (k a w))
    | Error _ => calls w
    end.
Proof. now destruct r. Qed.

(** X14: for list, today, week, get, search, create and update, every
    request of the calendar script carries as [calendarId] the optional
    calendar argument of the command line, or [primary] when that argument
    is absent. *)
Theorem calendar_argument_passed (command : string) (args : list string)
    (i : nat) :
  calendar_argument command = Some i ->
  Forall (fun c => prop (params_of c) "calendarId"
                   = default (arg args i) (VStr "primary"))
         (calls (snd (Calendar.main (command :: args)))).
Proof.
  unfold calendar_argument, Calendar.main. rewrite script_calls.
  unfold Calendar.dispatch. cbn [arg lookup list_lookup drop is_str].
  repeat match goal with
         | |- context [String.eqb command ?s] =>
             destruct (String.eqb_spec command s) as [-> | _]
         end;
    cbn [String.eqb Ascii.eqb Bool.eqb]; intros [= <-];
    rewrite ?guarded_calls;
    repeat match goal with
           | |- context [if ?b then [] else _] => destruct b; [constructor |]
           end.
  - unfold Calendar.listEvents. rewrite one_request by (intros; apply print_events_silent).
    repeat constructor.
  - unfold Calendar.todayEvents. rewrite one_request by (intros; apply print_events_silent).
    repeat constructor.
  - unfold Calendar.weekEvents. rewrite one_request by (intros; apply print_events_silent).
    repeat constructor.
  - unfold Calendar.getEvent. rewrite one_request by (intros; cbv beta; only_auto).
    repeat constructor.
  - unfold Calendar.searchEvents. rewrite one_request by (intros; apply print_events_silent).
    repeat constructor.
  - unfold Calendar.createEvent. rewrite lifted_calls.
    destruct (Calendar.read_payload _); [| constructor].
    rewrite one_request by (intros; apply print_event_silent).
    repeat constructor.
  - unfold Calendar.updateEvent. rewrite lifted_calls.
    destruct (Calendar.read_payload _); [| constructor].
    rewrite one_request by (intros; apply print_event_silent).
    repeat constructor.
Qed.

End CalendarRequests.

(** ** Event payloads and event lists *)

Section CalendarPayloads.
Context {RT : Runtime}.

Lemma create_dispatch (path : string) (rest : list string) :
  path <> "" ->
  Calendar.dispatch ("create" :: path :: rest) initial
  = Calendar.createEvent (VStr path) (arg rest 0) initial.
Proof.
  intros H. unfold Calendar.dispatch.
  cbn [arg lookup list_lookup drop is_str String.eqb Ascii.eqb Bool.eqb].
  rewrite (truthy_string _ H). reflexivity.
Qed.

Lemma update_dispatch (id path : string) (rest : list string) :
  id <> "" -> path <> "" ->
  Calendar.dispatch ("update" :: id :: path :: rest) initial
  = Calendar.updateEvent (VStr id) (VStr path) (arg rest 0) initial.
Proof.
  intros Hi Hp. unfold Calendar.dispatch.
  cbn [arg lookup list_lookup drop is_str String.eqb Ascii.eqb Bool.eqb].
  rewrite (truthy_string _ Hi), (truthy_string _ Hp). reflexivity.
Qed.

(** X15: create and update read and parse their payload before anything is
    requested.  If reading or parsing fails, the script ends with status 1
    and that error on standard error, and no request has been issued;
    otherwise it issues exactly one request, an insert or a patch, whose
    body is the parsed payload as it is. *)
Theorem payload_before_request (id path : string) (rest : list string) :
  id <> "" -> path <> "" ->
  match Calendar.read_payload (VStr path) with
  | Error e =>
      Calendar.main ("create" :: path :: rest)
      = (Some 1, World [] [] [ErrCaught e]) /\
      Calendar.main ("update" :: id :: path :: rest)
      = (Some 1, World [] [] [ErrCaught e])
  | Ok payload =>
      calls (snd (Calendar.main ("create" :: path :: rest)))
      = [Call calendar_events_insert
           (VObj [("calendarId", default (arg rest 0) (VStr "primary"));
                  ("requestBody", payload);
                  ("sendUpdates", VStr "all")])] /\
      calls (snd (Calendar.main ("update" :: id :: path :: rest)))
      = [Call calendar_events_patch
           (VObj [("calendarId", default (arg rest 0) (VStr "primary"));
                  ("eventId", VStr id);
                  ("requestBody", payload);
                  ("sendUpdates", VStr "all")])]
  end.
Proof.
  intros Hi Hp. unfold Calendar.main.
  destruct (Calendar.read_payload (VStr path)) as [payload | e] eqn:Hread.
  - rewrite !script_calls, (create_dispatch _ _ Hp), (update_dispatch _ _ _ Hi Hp).
    unfold Calendar.createEvent, Calendar.updateEvent.
    rewrite !lifted_calls, Hread.
    rewrite !one_request by (intros; apply print_event_silent).
    split; reflexivity.
  - unfold script.
    rewrite (create_dispatch _ _ Hp), (update_dispatch _ _ _ Hi Hp).
    unfold Calendar.createEvent, Calendar.updateEvent, bind, lift.
    rewrite Hread. split; reflexivity.
Qed.

(** The payload comes from standard input exactly when the path is a single
    dash, and from the named file otherwise. *)
Lemma payload_source (path : string) :
  Calendar.read_payload (VStr path)
  = if String.eqb path "-" then JSON_parse stdin
    else match readFileSync path with
         | Ok text => JSON_parse text
         | Error e => Error e
         end.
Proof.
  unfold Calendar.read_payload. cbn [is_str].
  destruct (String.eqb path "-"); [reflexivity |].
  now destruct (readFileSync path).
Qed.

Lemma rmap_Forall2 {A B} (f : A -> result B) (xs : list A) (ys : list B) :
  rmap f xs = Ok ys -> Forall2 (fun x y => f x = Ok y) xs ys.
Proof.
  revert ys. induction xs as [|x xs IH]; simpl; intros ys H.
  - injection H as <-. constructor.
  - destruct (f x) as [y|e] eqn:Hx; simpl in H; [| discriminate].
    destruct (rmap f xs) as [zs|e] eqn:Hxs; simpl in H; [| discriminate].
    injection H as <-. constructor; [exact Hx | now apply IH].
Qed.

Lemma list_events_done (params : value) :
  let body := (let! data := remote_call calendar_events_list params in
               Calendar.print_events data) in
  fst (script body) = Some 0 ->
  exists data items ps,
    snd (script body) = World [Call calendar_events_list params]
                              [OutJson (VArr ps)] [] /\
    remote [] (Call calendar_events_list params) = Resolve data /\
    or_else (prop data "items") (VArr []) = VArr items /\
    Forall2 (fun ev p => formatEvent ev = Ok p) items ps.
Proof.
  intros body. unfold body, script, bind, remote_call. cbn [calls initial].
  destruct (remote [] (Call calendar_events_list params)) as [data | msg];
    [| discriminate].
  unfold Calendar.print_events, bind, lift, get.
  destruct (nullish data); [discriminate |].
  unfold array_map.
  destruct (or_else (prop data "items") (VArr [])) as [ | | | | | | items | ]
    eqn:Hitems; try discriminate.
  destruct (rmap formatEvent items) as [ps | e] eqn:Hps; [| discriminate].
  intros _. exists data, items, ps. cbn [rbind].
  split; [reflexivity |]. split; [reflexivity |]. split; [exact Hitems |].
  now apply rmap_Forall2.
Qed.

(** X16: when list, today, week or search of the calendar script ends with
    status 0, it has issued one request, the event listing, and printed one
    array that holds, in the order of the answer, the projection of each
    event of the answer, and nothing else. *)
Theorem events_in_answer_order (argv : list string) :
  known calendar_list_commands argv = true ->
  fst (Calendar.main argv) = Some 0 ->
  exists params data items ps,
    snd (Calendar.main argv)
    = World [Call calendar_events_list params] [OutJson (VArr ps)] [] /\
    remote [] (Call calendar_events_list params) = Resolve data /\
    or_else (prop data "items") (VArr []) = VArr items /\
    Forall2 (fun ev p => formatEvent ev = Ok p) items ps.
Proof.
  destruct argv as [|c args]; [discriminate |].
  unfold Calendar.main, Calendar.dispatch.
  cbn [known calendar_list_commands existsb arg lookup list_lookup is_str].
  rewrite (drop_0 args : drop 1 (c :: args) = args).
  destruct (String.eqb_spec c "list") as [-> | _].
  { intros _ H. eexists. exact (list_events_done _ H). }
  destruct (String.eqb_spec c "today") as [-> | _].
  { intros _ H. eexists. exact (list_events_done _ H). }
  destruct (String.eqb_spec c "week") as [-> | _].
  { intros _ H. eexists. exact (list_events_done _ H). }
  destruct (String.eqb_spec c "search") as [-> | _]; [| discriminate].
  cbn [String.eqb Ascii.eqb Bool.eqb].
  destruct (truthy (arg args 0)); cbn [negb].
  - intros _ H. eexists. exact (list_events_done _ H).
  - intros _ H. unfold script, bind in H. rewrite usage_run in H. discriminate.
Qed.

End CalendarPayloads.

(** ** Requests of the spreadsheet read *)

Section SheetRequests.
Context {RT : Runtime}.

Lemma read_dispatch (id : string) (rest : list string) :
  id <> "" ->
  Sheets.dispatch ("read" :: id :: rest) initial
  = Sheets.readSheet (VStr id) (arg rest 0) initial.
Proof.
  intros H. unfold Sheets.dispatch.
  cbn [arg lookup list_lookup drop is_str String.eqb Ascii.eqb Bool.eqb].
  rewrite (truthy_string _ H). reflexivity.
Qed.

(** X17: with a non-empty range, the spreadsheet read issues one request,
    for the values of that range.  Without one it asks for the metadata of
    the spreadsheet first and then, if the metadata lists its sheets, for
    the values of the sheet listed first, and for nothing more. *)
Theorem read_sheet_requests (id : string) (rest : list string) :
  id <> "" ->
  let range := default (arg rest 0) (VStr "") in
  let spreadsheet := Call sheets_spreadsheets_get
                          (VObj [("spreadsheetId", VStr id)]) in
  let values_of := fun r => Call sheets_spreadsheets_values_get
                                 (VObj [("spreadsheetId", VStr id); ("range", r)]) in
  calls (snd (Sheets.main ("read" :: id :: rest)))
  = if truthy range then [values_of range]
    else match remote [] spreadsheet with
         | Reject _ => [spreadsheet]
         | Resolve meta =>
             match sheet_titles meta with
             | Ok titles => [spreadsheet; values_of (first_title titles)]
             | Error _ => [spreadsheet]
             end
         end.
Proof.
  intros H range spreadsheet values_of. unfold Sheets.main.
  rewrite script_calls, (read_dispatch _ _ H). unfold Sheets.readSheet.
  fold range. destruct (truthy range).
  - rewrite one_request by (intros; cbv beta; only_auto). reflexivity.
  - unfold bind at 1. unfold remote_call at 1. cbn [calls initial].
    fold spreadsheet. destruct (remote [] spreadsheet) as [meta | msg];
      [| reflexivity].
    unfold bind at 1. unfold lift at 1. fold (sheet_titles meta).
    destruct (sheet_titles meta) as [titles | e]; [| reflexivity].
    fold (first_title titles).
    rewrite one_request by (intros; cbv beta; only_auto). reflexivity.
Qed.

End SheetRequests.

(** ** Reading one message *)

Section ReadMessage.
Context {RT : Runtime}.

Lemma find_header_Ok (hs : list value) (name : string) :
  forallb (fun h => is_string (prop h "name") && negb (nullish h)) hs = true ->
  exists h, find_header hs name = Ok h /\ (truthy h = true -> nullish h = false).
Proof.
  induction hs as [|h hs IH]; simpl; intros H.
  - exists VUndef. split; [reflexivity | discriminate].
  - apply andb_prop in H as [Hh Hhs]. apply andb_prop in Hh as [Hs Hn].
    unfold get. destruct (nullish h) eqn:Hnull; [discriminate |]. cbn [rbind].
    destruct (prop h "name"); try discriminate.
    destruct (String.eqb _ _); [| now apply IH].
    exists h. now split.
Qed.

Lemma getHeader_Ok (headers : value) (name : string) :
  headers_ok headers = true -> exists v, getHeader headers name = Ok v.
Proof.
  unfold headers_ok, getHeader.
  destruct headers as [ | | | | | | hs | ]; try discriminate; intros H.
  - cbn. eauto.
  - cbn [or_else truthy].
    destruct (find_header_Ok hs name H) as (h & -> & Hh). cbn [rbind].
    destruct (truthy h) eqn:Ht; [| eauto].
    unfold get. rewrite (Hh eq_refl). eauto.
Qed.

(** X18: the message normalizer never throws on a message whose payload is
    well formed to some depth and whose header list is absent or an array
    of named headers, and its projection has exactly the nine keys id,
    threadId, from, to, subject, date, snippet, labels and body, in this
    order: the raw header list and the payload are not part of it. *)
Theorem formatMessage_projection_keys (depth : nat) (msg : value) :
  nullish msg = false ->
  well_formed depth (prop msg "payload") = true ->
  headers_ok (prop (prop msg "payload") "headers") = true ->
  exists p, formatMessage msg = Ok p /\ keys p = message_keys.
Proof.
  intros Hmsg Hwf Hh. unfold formatMessage, get. rewrite Hmsg. cbn [rbind].
  assert (Hp : nullish (prop msg "payload") = false).
  { destruct depth; [discriminate |]. simpl in Hwf.
    destruct (prop msg "payload"); try discriminate. reflexivity. }
  unfold get_opt. rewrite Hp.
  assert (Ho : or_else (prop (prop msg "payload") "headers") (VArr [])
               = VArr [] \/
               or_else (prop (prop msg "payload") "headers") (VArr [])
               = prop (prop msg "payload") "headers").
  { unfold or_else. destruct (truthy _); auto. }
  assert (Hh' : headers_ok (or_else (prop (prop msg "payload") "headers")
                                    (VArr [])) = true).
  { destruct Ho as [-> | ->]; [reflexivity | exact Hh]. }
  destruct (getHeader_Ok _ "From" Hh') as [from ->].
  destruct (getHeader_Ok _ "To" Hh') as [to ->].
  destruct (getHeader_Ok _ "Subject" Hh') as [subject ->].
  destruct (getHeader_Ok _ "Date" Hh') as [date ->].
  destruct (well_formed_extract _ _ Hwf) as [body ->].
  cbn [rbind]. eexists. split; reflexivity.
Qed.

(** X19: when the read command of the mail script ends with status 0, it
    has issued one request, for the full message with the given identifier,
    and printed one object, the projection of the answer. *)
Theorem read_prints_projection (id : string) (rest : list string) :
  fst (Gmail.main ("read" :: id :: rest)) = Some 0 ->
  exists data p,
    let request := Call gmail_users_messages_get
                     (VObj [("userId", VStr "me"); ("id", VStr id);
                            ("format", VStr "full")]) in
    remote [] request = Resolve data /\
    formatMessage data = Ok p /\
    Gmail.main ("read" :: id :: rest) = (Some 0, World [request] [OutJson p] []).
Proof.
  unfold Gmail.main, Gmail.dispatch.
  cbn [arg lookup list_lookup drop is_str String.eqb Ascii.eqb Bool.eqb].
  destruct (truthy (VStr id)); cbn [negb].
  - unfold script, Gmail.readMessage, bind, remote_call, ret, lift.
    cbn [calls initial].
    destruct (remote [] _) as [data | msg]; [| discriminate].
    destruct (formatMessage data) as [p | e] eqn:Hp; [| discriminate].
    intros _. exists data, p. repeat split. exact Hp.
  - unfold script, bind. rewrite usage_run. discriminate.
Qed.

End ReadMessage.

(** ** File listings *)

Section FileListings.
Context {RT : Runtime}.

Lemma prefix_app (s t : string) : String.prefix s (s ++ t) = true.
Proof.
  induction s as [|c s IH]; simpl.
  - now destruct t.
  - destruct (ascii_dec c c); [exact IH | contradiction].
Qed.

Lemma filtered_other (e : endpoint) (params : value) :
  e <> drive_files_list -> filtered (Call e params).
Proof. intros H Heq. contradiction. Qed.

Lemma filtered_within (w : world) :
  requests_within
    (fun e => match e with
              | sheets_spreadsheets_get | sheets_spreadsheets_values_get => true
              | _ => false
              end) w ->
  Forall filtered (calls w).
Proof.
  unfold requests_within. intros Hw. eapply Forall_impl; [exact Hw |].
  intros [e params] H. simpl in H.
  apply filtered_other. intros ->. discriminate.
Qed.

Lemma files_calls (args : list string) :
  calls (snd (Sheets.main ("files" :: args)))
  = [files_request (arg args 0)
       (if String.eqb (join (drop 1 args)) "" then "trashed = false"
        else filter_by_name (join (drop 1 args)))].
Proof.
  unfold Sheets.main. rewrite script_calls.
  unfold Sheets.dispatch. cbn [arg lookup list_lookup is_str].
  rewrite (drop_0 args : drop 1 ("files" :: args) = args).
  cbn [String.eqb Ascii.eqb Bool.eqb andb].
  unfold Sheets.listFiles. rewrite lifted_calls.
  assert (Hq : default (VStr (join (drop 1 args))) (VStr "")
               = VStr (join (drop 1 args))) by reflexivity.
  rewrite Hq. cbn [truthy Sheets.escape rbind].
  destruct (String.eqb (join (drop 1 args)) ""); cbn [negb rbind];
    rewrite one_request
      by (intros; unfold Sheets.print_files; cbv beta; only_auto);
    reflexivity.
Qed.

Lemma search_calls (s : string) (rest : list string) :
  s <> "" ->
  calls (snd (Sheets.main ("search" :: s :: rest)))
  = [search_request (arg rest 0) (filter_by_name_or_text s)].
Proof.
  intros Hs. unfold Sheets.main. rewrite script_calls.
  unfold Sheets.dispatch. cbn [arg lookup list_lookup is_str drop].
  cbn [String.eqb Ascii.eqb Bool.eqb andb].
  rewrite guarded_calls. rewrite (truthy_string _ Hs). cbn [negb].
  unfold Sheets.searchFiles. rewrite lifted_calls.
  cbn [Sheets.escape rbind].
  rewrite one_request
    by (intros; unfold Sheets.print_files; cbv beta; only_auto).
  reflexivity.
Qed.

(** X20: the filter of the file listings.  Every file listing the
    file-store script requests, for any command and arguments, carries as
    filter the condition that the file is not trashed, alone or joined by
    [and] with one parenthesized condition on the query text: that the name
    contains it ([files]), or that the name or the full text contains it
    ([search]); the query text stands between single quotes, with a
    backslash before each single quote of its own.  The [files] command
    issues exactly one request, with the filter alone when the words after
    the count are empty; the [search] command with a query issues exactly
    one request. *)
Theorem listing_filter (argv : list string) :
  Forall filtered (calls (snd (Sheets.main argv))) /\
  (forall args, argv = "files" :: args ->
     calls (snd (Sheets.main argv))
     = [files_request (arg args 0)
          (if String.eqb (join (drop 1 args)) "" then "trashed = false"
           else filter_by_name (join (drop 1 args)))]) /\
  (forall s rest, argv = "search" :: s :: rest -> s <> "" ->
     calls (snd (Sheets.main argv))
     = [search_request (arg rest 0) (filter_by_name_or_text s)]).
Proof.
  split; [| split].
  - destruct argv as [|c args]; [unfold Sheets.main; rewrite script_calls; constructor |].
    destruct (String.eqb_spec c "files") as [-> | Hfiles].
    { rewrite files_calls. repeat constructor. intros _.
      eexists. split; [reflexivity |].
      destruct (String.eqb_spec (join (drop 1 args)) "") as [He | He].
      - now left.
      - right. exists (join (drop 1 args)). split; [exact He | now left]. }
    destruct (String.eqb_spec c "search") as [-> | Hsearch].
    { destruct args as [|s rest].
      - unfold Sheets.main. rewrite script_calls.
        unfold Sheets.dispatch. cbn [arg lookup list_lookup is_str drop].
        cbn [String.eqb Ascii.eqb Bool.eqb andb].
        rewrite guarded_calls. cbn [truthy negb]. constructor.
      - destruct (String.eqb_spec s "") as [-> | Hs].
        + unfold Sheets.main. rewrite script_calls.
          unfold Sheets.dispatch. cbn [arg lookup list_lookup is_str drop].
          cbn [String.eqb Ascii.eqb Bool.eqb andb].
          rewrite guarded_calls. cbn [truthy String.eqb negb]. constructor.
        + rewrite (search_calls _ _ Hs). repeat constructor. intros _.
          eexists. split; [reflexivity |].
          right. exists s. split; [exact Hs | now right]. }
    unfold Sheets.main. rewrite script_calls.
    unfold Sheets.dispatch. cbn [arg lookup list_lookup is_str].
    rewrite (drop_0 args : drop 1 (c :: args) = args).
    destruct (String.eqb_spec c "files"); [contradiction |].
    destruct (String.eqb c "read").
    { rewrite <- script_calls. apply filtered_within. apply only_script.
      unfold Sheets.readSheet. only_auto. }
    destruct (String.eqb c "info").
    { rewrite <- script_calls. apply filtered_within. apply only_script.
      unfold Sheets.sheetInfo. only_auto. }
    destruct (String.eqb_spec c "search"); [contradiction |].
    unfold bind. rewrite usage_run. constructor.
  - intros args ->. apply files_calls.
  - intros s rest -> Hs. now apply search_calls.
Qed.

End FileListings.

(** ** The further properties at work on the fakes *)

Section OnDesk.
#[local] Existing Instance Demo.desk.

Lemma formatEvent_defaults_witness :
  prop Demo.all_day_projection "attendees" = VArr [] /\
  prop Demo.all_day_projection "description" = VStr "" /\
  prop Demo.all_day_projection "location" = VStr "" /\
  prop Demo.all_day_projection "start" = VStr "2026-11-03" /\
  prop Demo.all_day_projection "end" = VStr "2026-11-04".
Proof.
  destruct (formatEvent_defaults Demo.all_day Demo.all_day_projection eq_refl)
    as (Ha & Hd & Hl & Hs & He).
  split; [now apply Ha |]. split; [now apply Hd |]. split; [now apply Hl |]. split.
  - apply Hs; [reflexivity | reflexivity | discriminate].
  - apply He; [reflexivity | reflexivity | discriminate].
Defined.

Lemma html_leaf_truncated_witness :
  exists shown,
    extractBody (html_part "PHA-aGk8L3A-") = Ok ("[HTML] " ++ shown) /\
    shown = substring 0 2000 "<p>hi</p>" /\
    String.prefix shown "<p>hi</p>" = true /\
    String.length shown = Nat.min 2000 (String.length "<p>hi</p>").
Proof.
  refine (proj2 (html_leaf_truncated (html_part "PHA-aGk8L3A-") eq_refl eq_refl)
            "PHA-aGk8L3A-" eq_refl _ eq_refl).
  discriminate.
Defined.

Lemma window_bounds_witness :
  setHours Fixture.a_wednesday 0 0 0 0
  < setHours (Fixture.a_wednesday + 1) 23 59 59 999.
Proof.
  refine (proj1 (proj2 (proj2 (proj2
            (window_bounds Fixture.a_wednesday (Fixture.a_wednesday + 1) _))))).
  vm_compute. discriminate.
Defined.

Lemma getHeader_case_insensitive_witness :
  getHeader (VArr [Fixture.header "From" "a@example.com";
                   Fixture.header "SUBJECT" "hi";
                   Fixture.header "Subject" "later"]) "Subject"
  = Ok (VStr "hi").
Proof.
  refine (proj1 (proj2 (getHeader_case_insensitive "Subject" eq_refl))
            [Fixture.header "From" "a@example.com"]
            [("name", VStr "SUBJECT"); ("value", VStr "hi")] "SUBJECT"
            [Fixture.header "Subject" "later"] _ eq_refl eq_refl eq_refl).
  repeat constructor. exists "From".
  split; [reflexivity |]. split; [reflexivity |].
  intros H. vm_compute in H. discriminate H.
Defined.

Lemma listing_filter_witness :
  calls (snd (Sheets.main ["files"; "5"; "o'brien"; "budget"]))
  = [files_request (VStr "5")
       "trashed = false and (name contains 'o\'brien budget')"].
Proof.
  exact (proj1 (proj2 (listing_filter ["files"; "5"; "o'brien"; "budget"]))
           ["5"; "o'brien"; "budget"] eq_refl).
Defined.

Lemma extractBody_never_throws_witness :
  exists text, extractBody Demo.nested = Ok text.
Proof. apply (extractBody_never_throws 3). reflexivity. Defined.

Lemma first_part_with_text_witness :
  extractBody
    (VObj [("mimeType", VStr "multipart/mixed");
           ("parts", VArr ([Demo.attachment]
                           ++ plain_part "aGk=" :: [html_part "PHA-aGk8L3A-"]))])
  = Ok "hi".
Proof.
  refine (first_part_with_text (VStr "multipart/mixed") [Demo.attachment]
            [html_part "PHA-aGk8L3A-"] (plain_part "aGk=") "hi" _ _ _ _).
  - reflexivity.
  - repeat constructor.
  - reflexivity.
  - discriminate.
Defined.

Lemma unknown_command_usage_witness :
  Gmail.main ["delete"; "18dc1234abcd"]
  = (Some 1, World [] [] (List.map ErrText Gmail.usage_default)) /\
  Sheets.main ["delete"; "18dc1234abcd"]
  = (Some 1, World [] [] (List.map ErrText Sheets.usage_default)) /\
  Calendar.main ["delete"; "18dc1234abcd"]
  = (Some 1, World [] [] (List.map ErrText Calendar.usage_default)).
Proof.
  destruct (unknown_command_usage ["delete"; "18dc1234abcd"]) as (Hg & Hs & Hc).
  split; [apply Hg; reflexivity |].
  split; [apply Hs; reflexivity | apply Hc; reflexivity].
Defined.

Lemma empty_enumeration_witness :
  script (run_aggregated MailSearch (VStr "5") (VStr "from:nobody"))
  = (Some 0,
     World [enumeration_of MailSearch (VStr "5") (VStr "from:nobody")]
           [OutText "No messages found."] []).
Proof.
  apply (empty_enumeration MailSearch (VStr "5") (VStr "from:nobody")
           (VObj []) VUndef).
  - reflexivity.
  - reflexivity.
  - now left.
Defined.

Lemma calendar_argument_passed_witness :
  Forall (fun c => prop (params_of c) "calendarId" = VStr "work")
         (calls (snd (Calendar.main ["get"; "e1"; "work"]))).
Proof. refine (calendar_argument_passed "get" ["e1"; "work"] 1 _). reflexivity. Defined.

Lemma payload_before_request_witness :
  calls (snd (Calendar.main ["create"; "patch.json"]))
  = [Call calendar_events_insert
       (VObj [("calendarId", VStr "primary");
              ("requestBody", Demo.patch);
              ("sendUpdates", VStr "all")])] /\
  calls (snd (Calendar.main ["update"; "e1"; "patch.json"]))
  = [Call calendar_events_patch
       (VObj [("calendarId", VStr "primary");
              ("eventId", VStr "e1");
              ("requestBody", Demo.patch);
              ("sendUpdates", VStr "all")])].
Proof.
  refine (payload_before_request "e1" "patch.json" [] _ _); discriminate.
Defined.

Lemma events_in_answer_order_witness :
  exists params data items ps,
    snd (Calendar.main ["today"])
    = World [Call calendar_events_list params] [OutJson (VArr ps)] [] /\
    remote [] (Call calendar_events_list params) = Resolve data /\
    or_else (prop data "items") (VArr []) = VArr items /\
    Forall2 (fun ev p => formatEvent ev = Ok p) items ps.
Proof. refine (events_in_answer_order ["today"] _ _); reflexivity. Defined.

Lemma read_sheet_requests_witness :
  calls (snd (Sheets.main ["read"; "1BxiMVs0XRA5"]))
  = [Call sheets_spreadsheets_get (VObj [("spreadsheetId", VStr "1BxiMVs0XRA5")]);
     Call sheets_spreadsheets_values_get
       (VObj [("spreadsheetId", VStr "1BxiMVs0XRA5"); ("range", VStr "Q1")])].
Proof. refine (read_sheet_requests "1BxiMVs0XRA5" [] _). discriminate. Defined.

Lemma requests_by_capability_witness :
  requests_within calendar_read_endpoint (snd (Calendar.main ["week"; "work"])).
Proof.
  apply (proj2 (proj2 (proj2 (requests_by_capability ["week"; "work"])))).
  reflexivity.
Defined.

End OnDesk.

Section OnHealthyFakeAgain.
#[local] Existing Instance Fixture.healthy.

Lemma thread_answers (i : nat) (t : value) :
  List.map Fixture.mail_ref Fixture.inbox !! i = Some t ->
  exists c d v,
    Gmail.thread_start t = Ok c /\
    answer Gmail.thread_start [threads_request (VStr "is:unread") VUndef]
      (List.map Fixture.mail_ref Fixture.inbox) i c = Resolve d /\
    Gmail.thread_finish t d = Ok v.
Proof.
  intros Hi. unfold answer.
  do 5 (destruct i as [|i];
        [injection Hi as <-; do 3 eexists; repeat split; reflexivity |]).
  discriminate.
Qed.

Lemma threads_preserve_order_witness :
  exists vs,
    Gmail.listThreads (VStr "is:unread") VUndef initial
    = (Done tt,
       World (threads_request (VStr "is:unread") VUndef
              :: requests Gmail.thread_start
                   (List.map Fixture.mail_ref Fixture.inbox))
             [OutJson (VArr vs)] []) /\
    length vs = 5%nat /\
    forall i t, List.map Fixture.mail_ref Fixture.inbox !! i = Some t ->
      exists c d v,
        Gmail.thread_start t = Ok c /\
        answer Gmail.thread_start [threads_request (VStr "is:unread") VUndef]
          (List.map Fixture.mail_ref Fixture.inbox) i c = Resolve d /\
        Gmail.thread_finish t d = Ok v /\
        vs !! i = Some v.
Proof.
  apply (threads_preserve_order (VStr "is:unread") VUndef
           (VObj [("threads", VArr (List.map Fixture.mail_ref Fixture.inbox))])).
  - reflexivity.
  - reflexivity.
  - discriminate.
  - intros i t Hi. now apply thread_answers.
  - exact out_of_order_perm.
Defined.

Lemma formatMessage_projection_keys_witness :
  exists p, formatMessage (Fixture.mail_detail "A") = Ok p
            /\ keys p = message_keys.
Proof.
  apply (formatMessage_projection_keys 1 (Fixture.mail_detail "A")); reflexivity.
Defined.

Lemma read_prints_projection_witness :
  exists data p,
    remote [] (Call gmail_users_messages_get
                 (VObj [("userId", VStr "me"); ("id", VStr "A");
                        ("format", VStr "full")])) = Resolve data /\
    formatMessage data = Ok p /\
    Gmail.main ["read"; "A"]
    = (Some 0,
       World [Call gmail_users_messages_get
                (VObj [("userId", VStr "me"); ("id", VStr "A");
                       ("format", VStr "full")])]
             [OutJson p] []).
Proof. refine (read_prints_projection "A" [] _). reflexivity. Defined.

End OnHealthyFakeAgain.

Section Offline.
#[local] Existing Instance Demo.offline.

Lemma service_down_status_witness :
  (fst (Gmail.main ["list"; "5"]) = Some 1
   /\ stdout (snd (Gmail.main ["list"; "5"])) = []) /\
  (fst (Sheets.main ["list"; "5"]) = Some 1
   /\ stdout (snd (Sheets.main ["list"; "5"])) = []) /\
  (fst (Calendar.main ["list"; "5"]) = Some 1
   /\ stdout (snd (Calendar.main ["list"; "5"])) = []).
Proof.
  apply (service_down_status (RT := Demo.offline)).
  intros history c. now eexists.
Defined.

End Offline.

(** ** Label and file listings *)

Section Listings.
Context {RT : Runtime}.

Lemma listing_done (e : endpoint) (params : value) (key : string)
    (f : value -> result value) :
  let body := (let! data := remote_call e params in
               let! items := lift (get data key) in
               let! ps := lift (array_map (or_else items (VArr [])) f) in
               console_log (OutJson ps)) in
  fst (script body) = Some 0 ->
  exists data items ps,
    snd (script body) = World [Call e params] [OutJson (VArr ps)] [] /\
    remote [] (Call e params) = Resolve data /\
    or_else (prop data key) (VArr []) = VArr items /\
    Forall2 (fun x p => f x = Ok p) items ps.
Proof.
  intros body. unfold body, script, bind, remote_call. cbn [calls initial].
  destruct (remote [] (Call e params)) as [data | msg]; [| discriminate].
  unfold lift, get. destruct (nullish data); [discriminate |].
  unfold array_map.
  destruct (or_else (prop data key) (VArr [])) as [ | | | | | | items | ]
    eqn:Hitems; try discriminate.
  destruct (rmap f items) as [ps | err] eqn:Hps; [| discriminate].
  intros _. exists data, items, ps. cbn [rbind].
  split; [reflexivity |]. split; [reflexivity |]. split; [exact Hitems |].
  now apply rmap_Forall2.
Qed.

Lemma lifted_script {A} (r : result A) (k : A -> M unit) :
  script (let! a := lift r in k a)
  = match r with
    | Ok a => script (k a)
    | Error e => (Some 1, World [] [] [ErrCaught e])
    end.
Proof. now destruct r. Qed.

Lemma guarded_script (b : bool) (lines : list string) (op : M unit) :
  script ((if b then usage lines else ret tt) ;;; op)
  = if b then (Some 1, World [] [] (List.map ErrText lines)) else script op.
Proof.
  destruct b; [| reflexivity].
  unfold script, bind. now rewrite usage_run.
Qed.

(** X22: when the labels command of the mail script, or the files or search
    command of the file-store script, ends with status 0, it has issued one
    request and printed one array that holds, in the order of the answer,
    the projection of each label or file of the answer. *)
Theorem listings_in_answer_order (argv : list string) :
  (known ["labels"] argv = true ->
   fst (Gmail.main argv) = Some 0 ->
   exists params data items ps,
     snd (Gmail.main argv)
     = World [Call gmail_users_labels_list params] [OutJson (VArr ps)] [] /\
     remote [] (Call gmail_users_labels_list params) = Resolve data /\
     or_else (prop data "labels") (VArr []) = VArr items /\
     Forall2 (fun l p => label_ref l = Ok p) items ps) /\
  (known file_list_commands argv = true ->
   fst (Sheets.main argv) = Some 0 ->
   exists params data items ps,
     snd (Sheets.main argv)
     = World [Call drive_files_list params] [OutJson (VArr ps)] [] /\
     remote [] (Call drive_files_list params) = Resolve data /\
     or_else (prop data "files") (VArr []) = VArr items /\
     Forall2 (fun f p => Sheets.file_ref f = Ok p) items ps).
Proof.
  split.
  - destruct argv as [|c args]; [discriminate |].
    unfold Gmail.main, Gmail.dispatch.
    cbn [known existsb arg lookup list_lookup is_str].
    destruct (String.eqb_spec c "labels") as [-> | _]; [| discriminate].
    cbn [String.eqb Ascii.eqb Bool.eqb].
    intros _ H. eexists.
    exact (listing_done gmail_users_labels_list _ "labels" label_ref H).
  - destruct argv as [|c args]; [discriminate |].
    unfold Sheets.main, Sheets.dispatch.
    cbn [known file_list_commands existsb arg lookup list_lookup is_str].
    rewrite (drop_0 args : drop 1 (c :: args) = args).
    destruct (String.eqb_spec c "files") as [-> | _].
    { intros _. unfold Sheets.listFiles. rewrite lifted_script.
      destruct (if truthy _ then _ else _) as [q | e]; [| discriminate].
      intros H. eexists.
      exact (listing_done drive_files_list _ "files" Sheets.file_ref H). }
    destruct (String.eqb_spec c "search") as [-> | _]; [| discriminate].
    cbn [String.eqb Ascii.eqb Bool.eqb].
    rewrite guarded_script. destruct (negb _); [discriminate |].
    intros _. unfold Sheets.searchFiles. rewrite lifted_script.
    destruct (let? e := Sheets.escape _ in _) as [q | e]; [| discriminate].
    intros H. eexists.
    exact (listing_done drive_files_list _ "files" Sheets.file_ref H).
Qed.

End Listings.

Section OnDeskAgain.
#[local] Existing Instance Demo.desk.

Lemma listings_in_answer_order_witness :
  (exists params data items ps,
     snd (Gmail.main ["labels"])
     = World [Call gmail_users_labels_list params] [OutJson (VArr ps)] [] /\
     remote [] (Call gmail_users_labels_list params) = Resolve data /\
     or_else (prop data "labels") (VArr []) = VArr items /\
     Forall2 (fun l p => label_ref l = Ok p) items ps) /\
  (exists params data items ps,
     snd (Sheets.main ["search"; "Bob's budget"])
     = World [Call drive_files_list params] [OutJson (VArr ps)] [] /\
     remote [] (Call drive_files_list params) = Resolve data /\
     or_else (prop data "files") (VArr []) = VArr items /\
     Forall2 (fun f p => Sheets.file_ref f = Ok p) items ps).
Proof.
  split.
  - refine (proj1 (listings_in_answer_order ["labels"]) _ _); reflexivity.
  - refine (proj2 (listings_in_answer_order ["search"; "Bob's budget"]) _ _);
      reflexivity.
Defined.

End OnDeskAgain.
